(** * copyFilePaths.py: the file path extractor

    A shallow embedding of [src/copyFilePaths.py] and the proofs of the
    properties its specification states about it.

    Python strings are sequences of Unicode code points, so a [str] is a
    list of code points; bytes are lists of octets.  A list handed to
    [extract_file_paths] is a Python list of objects: the annotation
    [List[str]] is not enforced, and a non-string element makes
    [line.strip()] raise, which is the path the [try]/[except] of the
    function exists for.  Console output, file reads and the clipboard
    pipe are recorded as a log of events next to the returned value. *)

From Stdlib Require Import List NArith ZArith Bool Lia Permutation Sorted.
From Stdlib Require Import String Ascii.
Import ListNotations.

Local Open Scope N_scope.
Local Open Scope list_scope.

(** ** Strings *)

Definition char := N.
Definition str := list char.
Definition bytes := list N.

(** An ASCII literal as a Python string. *)
Fixpoint of_string (s : string) : str :=
  match s with
  | EmptyString => []
  | String c s' => N_of_ascii c :: of_string s'
  end.

(** [a == b] on strings. *)
Fixpoint str_eqb (a b : str) : bool :=
  match a, b with
  | [], [] => true
  | x :: a', y :: b' => (x =? y) && str_eqb a' b'
  | _, _ => false
  end.

(** [a < b] on strings: code point by code point, a proper prefix first. *)
Fixpoint str_ltb (a b : str) : bool :=
  match a, b with
  | _, [] => false
  | [], _ :: _ => true
  | x :: a', y :: b' => (x <? y) || ((x =? y) && str_ltb a' b')
  end.

(** [a < b] as a proposition, the meaning of [str_ltb]. *)
Fixpoint str_lt (a b : str) : Prop :=
  match a, b with
  | _, [] => False
  | [], _ :: _ => True
  | x :: a', y :: b' => x < y \/ (x = y /\ str_lt a' b')
  end.

(** The characters [str.strip()] removes: CPython's
    [_PyUnicode_IsWhitespace]. *)
Definition is_space (c : char) : bool :=
  ((0x09 <=? c) && (c <=? 0x0D)) || ((0x1C <=? c) && (c <=? 0x20))
  || (c =? 0x85) || (c =? 0xA0) || (c =? 0x1680)
  || ((0x2000 <=? c) && (c <=? 0x200A))
  || (c =? 0x2028) || (c =? 0x2029) || (c =? 0x202F) || (c =? 0x205F)
  || (c =? 0x3000).

Fixpoint lstrip (s : str) : str :=
  match s with
  | [] => []
  | c :: s' => if is_space c then lstrip s' else s
  end.

Definition rstrip (s : str) : str := rev (lstrip (rev s)).

(** [s.strip()] *)
Definition strip (s : str) : str := rstrip (lstrip s).

(** A string that [strip] leaves alone: nothing to remove at either end. *)
Definition is_stripped (s : str) : Prop :=
  lstrip s = s /\ lstrip (rev s) = rev s.

(** The line boundaries of [str.splitlines()]: CPython's
    [_PyUnicode_IsLinebreak]. *)
Definition is_linebreak (c : char) : bool :=
  ((0x0A <=? c) && (c <=? 0x0D)) || ((0x1C <=? c) && (c <=? 0x1E))
  || (c =? 0x85) || (c =? 0x2028) || (c =? 0x2029).

(** [s.splitlines()]: [cur] is the line being read, newest character
    first.  A carriage return followed by a line feed is one boundary, and
    a boundary at the very end opens no further line. *)
Fixpoint splitlines_from (cur : str) (s : str) : list str :=
  match s with
  | [] => match cur with [] => [] | _ :: _ => [rev cur] end
  | c :: rest =>
      if is_linebreak c then
        rev cur ::
          match rest with
          | c' :: rest' =>
              if (c =? 0x0D) && (c' =? 0x0A) then splitlines_from [] rest'
              else splitlines_from [] rest
          | [] => splitlines_from [] rest
          end
      else splitlines_from (c :: cur) rest
  end.

Definition splitlines (s : str) : list str := splitlines_from [] s.

(** The newline translation of a file opened in text mode with the
    default [newline=None]: "\r\n" and a lone "\r" are read as "\n". *)
Fixpoint universal_newlines (s : str) : str :=
  match s with
  | [] => []
  | c :: rest =>
      if c =? 0x0D then
        0x0A :: match rest with
                | c' :: rest' =>
                    if c' =? 0x0A then universal_newlines rest'
                    else universal_newlines rest
                | [] => universal_newlines rest
                end
      else c :: universal_newlines rest
  end.

(** ["\n".join(parts)] *)
Fixpoint join_lines (parts : list str) : str :=
  match parts with
  | [] => []
  | [p] => p
  | p :: rest => p ++ 0x0A :: join_lines rest
  end.

(** [s.startswith(prefix)] *)
Fixpoint startswith (s prefix : str) : bool :=
  match prefix, s with
  | [], _ => true
  | p :: prefix', c :: s' => (c =? p) && startswith s' prefix'
  | _ :: _, [] => false
  end.

Definition is_ascii (c : char) : bool := c <? 0x80.

Definition ascii_lower (c : char) : char :=
  if (0x41 <=? c) && (c <=? 0x5A) then c + 0x20 else c.

(** ** Exceptions *)

Inductive exn : Type :=
| AttributeError
| UnicodeDecodeError
| UnicodeEncodeError
| OSError.

Inductive outcome (A : Type) : Type :=
| Return (a : A)
| Raise (e : exn).
Arguments Return {A} a.
Arguments Raise {A} e.

Definition rbind {A B : Type} (r : outcome A) (k : A -> outcome B) : outcome B :=
  match r with
  | Return a => k a
  | Raise e => Raise e
  end.

Notation "x <-! r ; k" := (rbind r (fun x => k))
  (at level 61, r at next level, right associativity).

(** What a list element can be at run time. *)
Inductive pyobj : Type :=
| PyStr (s : str)
| PyNone
| PyInt (z : Z).

(** [line.strip()]: only a string has the method. *)
Definition py_strip (line : pyobj) : outcome str :=
  match line with
  | PyStr s => Return (strip s)
  | PyNone | PyInt _ => Raise AttributeError
  end.

(** A string is true when it is not empty. *)
Definition truthy (s : str) : bool :=
  match s with [] => false | _ :: _ => true end.

(** ** The outside world *)

Inductive encoding : Type := UTF8 | GBK.

(** What a path names in the file system. *)
Inductive fs_entry : Type :=
| Absent                          (* [exists()] is false *)
| NotRegular                      (* a directory or another non-regular entry *)
| Regular (data : option bytes).  (* a file; [None] when reading it raises [OSError] *)

(** The lines the program prints.  The fixed Chinese texts are named by
    constructors; what is interpolated is kept. *)
Inductive message : Type :=
| ErrNotExists (filepath : str)      (* "错误: 文件不存在 - {filepath}" *)
| ErrNotAFile (filepath : str)       (* "错误: 路径不是文件 - {filepath}" *)
| ErrUtf8TryGbk                      (* "错误: 无法用UTF-8编码读取文件，尝试使用GBK编码..." *)
| ErrCannotRead (e : exn)            (* "错误: 无法读取文件 - {e}" *)
| ErrReadException (e : exn)         (* "错误: 读取文件时发生异常 - {e}" *)
| ErrExtract (e : exn)               (* "错误: 提取文件路径时发生异常 - {e}" *)
| HintNothingToCopy                  (* "提示: 没有文件路径可复制" *)
| MsgCopied (n : nat)                (* "✅ 已复制 {n} 个文件路径到剪贴板" *)
| WarnUnsupported (platform : str)   (* "⚠️  当前系统 ({sys.platform}) 暂不支持自动复制到剪贴板" *)
| MsgCopyManually                    (* "请手动复制以下内容：" *)
| Text (s : str)                     (* [print(result)], [print("-" * 50)] *)
| ErrCopyFailed (e : exn)            (* "错误: 复制到剪贴板失败 - {e}" *)
| MsgProcessing (params_file : str)  (* "正在处理文件: {params_file}" *)
| HintNoValidPaths                   (* "提示: 文件中没有找到有效的文件路径" *)
| MsgFound (n : nat)                 (* "找到 {n} 个文件路径:" *)
| MsgItem (i : nat) (path : str).    (* "  {i:3d}. {path}" *)

Inductive event : Type :=
| Print (m : message)                       (* a line on the console *)
| ReadText (filepath : str) (enc : encoding) (* [Path.read_text(encoding=enc)] read the file *)
| ClipPipe (data : bytes).                  (* [data] was piped into [clip] *)

Record world : Type := {
  sys_platform : str;          (* [sys.platform] *)
  fs : str -> fs_entry;        (* the file system, by path *)
  clip_spawns : bool;          (* [subprocess.Popen(['clip'], shell=True)] starts *)
  stdout_check_mark : bool     (* the encoding of [sys.stdout] has U+2705 *)
}.

(** A computation that leaves a log and returns a value.  [print] is taken
    to succeed, but for the success line of the clipboard writer: that
    line is printed on Windows only, where the encoding of a redirected
    [sys.stdout] is the code page GBK, which has the Chinese texts and
    not the check mark U+2705 the line starts with. *)
Definition io (A : Type) : Type := (list event * A)%type.

Definition ret {A : Type} (a : A) : io A := ([], a).

Definition bind {A B : Type} (c : io A) (k : A -> io B) : io B :=
  let (l1, a) := c in
  let (l2, b) := k a in
  (l1 ++ l2, b).

Definition emit (e : event) : io unit := ([e], tt).
Definition print (m : message) : io unit := emit (Print m).

Notation "x <- c ;; k" := (bind c (fun x => k))
  (at level 61, c at next level, right associativity).
Notation "c ;; k" := (bind c (fun _ => k))
  (at level 61, right associativity).

(** ["-" * 50] *)
Definition separator : str := repeat 0x2D 50%nat.

(** The prefix ['win'] of the Windows platform names. *)
Definition win : str := of_string "win".

Section Program.

(** [str.lower()] outside ASCII follows the Unicode character database,
    and the codecs are Python's; neither is part of this repository. *)
Variable unicode_lower : str -> str.
Variable decode : encoding -> bytes -> option str.
Variable encode : encoding -> str -> option bytes.

(** *** The text loader *)

(** [file_path.read_text(encoding=enc)] on a path that was found to name
    a regular file. *)
Definition read_text (w : world) (filepath : str) (enc : encoding)
  : io (outcome str) :=
  match fs w filepath with
  | Regular (Some data) =>
      emit (ReadText filepath enc) ;;
      match decode enc data with
      | Some text => ret (Return (universal_newlines text))
      | None => ret (Raise UnicodeDecodeError)
      end
  | _ => ret (Raise OSError)
  end.

Definition path_exists (w : world) (filepath : str) : bool :=
  match fs w filepath with Absent => false | _ => true end.

Definition path_is_file (w : world) (filepath : str) : bool :=
  match fs w filepath with Regular _ => true | _ => false end.

(** [FilePathExtractor.read_params_file]; [None] is Python's [None]. *)
Definition read_params_file (w : world) (filepath : str)
  : io (option (list str)) :=
  if negb (path_exists w filepath) then
    print (ErrNotExists filepath) ;; ret None
  else if negb (path_is_file w filepath) then
    print (ErrNotAFile filepath) ;; ret None
  else
    r <- read_text w filepath UTF8 ;;
    match r with
    | Return text => ret (Some (splitlines text))
    | Raise UnicodeDecodeError =>
        print ErrUtf8TryGbk ;;
        r' <- read_text w filepath GBK ;;
        match r' with
        | Return text => ret (Some (splitlines text))
        | Raise e => print (ErrCannotRead e) ;; ret None
        end
    | Raise e => print (ErrReadException e) ;; ret None
    end.

(** *** The normalizer *)

(** [x.lower()] *)
Definition lower (x : str) : str :=
  if forallb is_ascii x then map ascii_lower x else unicode_lower x.

(** [[line.strip() for line in content if line.strip()]] *)
Fixpoint stripped_lines (content : list pyobj) : outcome (list str) :=
  match content with
  | [] => Return []
  | line :: rest =>
      cond <-! py_strip line ;
      if truthy cond then
        item <-! py_strip line ;
        items <-! stripped_lines rest ;
        Return (item :: items)
      else stripped_lines rest
  end.

(** [path not in unique_paths] is the negation of this. *)
Definition contains (unique_paths : list str) (path : str) : bool :=
  existsb (str_eqb path) unique_paths.

(** The loop [for path in file_paths: if path not in unique_paths:
    unique_paths.append(path)], from a given [unique_paths]. *)
Fixpoint dedup_loop (unique_paths file_paths : list str) : list str :=
  match file_paths with
  | [] => unique_paths
  | path :: rest =>
      if negb (contains unique_paths path)
      then dedup_loop (unique_paths ++ [path]) rest
      else dedup_loop unique_paths rest
  end.

(** [sorted(xs, key=...)] is a stable sort that compares keys with [<]:
    an element goes in front of the first one whose key is not smaller
    than its own.  [sorted_unique] below shows that no other list is a
    stable sort of [xs]. *)
Fixpoint insert_by (key : str -> str) (x : str) (xs : list str) : list str :=
  match xs with
  | [] => [x]
  | y :: ys =>
      if str_ltb (key y) (key x) then y :: insert_by key x ys
      else x :: xs
  end.

Fixpoint sorted (key : str -> str) (xs : list str) : list str :=
  match xs with
  | [] => []
  | x :: rest => insert_by key x (sorted key rest)
  end.

(** The body of the [try] of [extract_file_paths]. *)
Definition extract_file_paths_try (content : list pyobj) : outcome (list str) :=
  file_paths <-! stripped_lines content ;
  let unique_paths := dedup_loop [] file_paths in
  let sorted_paths := sorted lower unique_paths in
  Return sorted_paths.

(** [FilePathExtractor.extract_file_paths] *)
Definition extract_file_paths (content : list pyobj) : io (list str) :=
  match content with
  | [] => ret []
  | _ :: _ =>
      match extract_file_paths_try content with
      | Return sorted_paths => ret sorted_paths
      | Raise e => print (ErrExtract e) ;; ret []
      end
  end.

(** The list [extract_file_paths] returns for a list of strings. *)
Definition Normalizer (L : list str) : list str :=
  snd (extract_file_paths (map PyStr L)).

(** *** The clipboard writer *)

(** [FilePathExtractor._get_system_clipboard_encoding] *)
Definition _get_system_clipboard_encoding (w : world) : encoding :=
  if startswith (sys_platform w) win then GBK else UTF8.

(** The object [FilePathExtractor()] builds. *)
Record FilePathExtractor : Type := {
  clipboard_encoding : encoding
}.

Definition __init__ (w : world) : FilePathExtractor :=
  {| clipboard_encoding := _get_system_clipboard_encoding w |}.

(** The Windows branch of the [try] of [copy_file_paths]: the shell is
    started, then the text is encoded, then piped into it, then the
    success line is printed.  Each step can raise, the print too, when
    [sys.stdout] cannot encode the check mark. *)
Definition clip_try (self : FilePathExtractor) (w : world)
           (file_paths : list str) (result : str) : io (outcome bool) :=
  if clip_spawns w then
    match encode (clipboard_encoding self) result with
    | Some data =>
        emit (ClipPipe data) ;;
        if stdout_check_mark w then
          print (MsgCopied (List.length file_paths)) ;;
          ret (Return true)
        else ret (Raise UnicodeEncodeError)
    | None => ret (Raise UnicodeEncodeError)
    end
  else ret (Raise OSError).

(** [FilePathExtractor.copy_file_paths] *)
Definition copy_file_paths (self : FilePathExtractor) (w : world)
           (file_paths : list str) : io bool :=
  match file_paths with
  | [] => print HintNothingToCopy ;; ret false
  | _ :: _ =>
      let result := join_lines file_paths in
      if startswith (sys_platform w) win then
        r <- clip_try self w file_paths result ;;
        match r with
        | Return b => ret b
        | Raise e => print (ErrCopyFailed e) ;; ret false
        end
      else
        print (WarnUnsupported (sys_platform w)) ;;
        print MsgCopyManually ;;
        print (Text separator) ;;
        print (Text result) ;;
        print (Text separator) ;;
        ret false
  end.

(** *** The orchestrator *)

(** [for i, path in enumerate(file_paths, 1): print(...)], from [i]. *)
Fixpoint print_items (i : nat) (file_paths : list str) : io unit :=
  match file_paths with
  | [] => ret tt
  | path :: rest => print (MsgItem i path) ;; print_items (S i) rest
  end.

(** [FilePathExtractor.process] *)
Definition process (self : FilePathExtractor) (w : world)
           (params_file : str) : io bool :=
  print (MsgProcessing params_file) ;;
  content <- read_params_file w params_file ;;
  match content with
  | None => ret false
  | Some content =>
      file_paths <- extract_file_paths (map PyStr content) ;;
      match file_paths with
      | [] => print HintNoValidPaths ;; ret true
      | _ :: _ =>
          print (MsgFound (List.length file_paths)) ;;
          print_items 1 file_paths ;;
          copy_file_paths self w file_paths
      end
  end.

(** [main], to the exit code of the process: [sys.exit(1)] when
    [process] returns false, and 0 when [main] returns.  [SystemExit] is
    no [Exception], so the last handler lets it through; [process] raises
    nothing, and an interrupt from the keyboard is left out. *)
Definition main (w : world) (params_file : str) : io Z :=
  let extractor := __init__ w in
  success <- process extractor w params_file ;;
  if negb success then ret 1%Z else ret 0%Z.

End Program.

(** ** Codecs to run the program with *)

Module Codec.

Definition is_cont (b : N) : bool := (0x80 <=? b) && (b <=? 0xBF).

(** The second byte a three-byte sequence allows after [b0]: no overlong
    form and no surrogate. *)
Definition second_of_3 (b0 b1 : N) : bool :=
  if b0 =? 0xE0 then (0xA0 <=? b1) && (b1 <=? 0xBF)
  else if b0 =? 0xED then (0x80 <=? b1) && (b1 <=? 0x9F)
  else is_cont b1.

(** The second byte a four-byte sequence allows after [b0]: no overlong
    form and nothing above U+10FFFF. *)
Definition second_of_4 (b0 b1 : N) : bool :=
  if b0 =? 0xF0 then (0x90 <=? b1) && (b1 <=? 0xBF)
  else if b0 =? 0xF4 then (0x80 <=? b1) && (b1 <=? 0x8F)
  else is_cont b1.

Definition cons_opt (c : char) (r : option str) : option str :=
  match r with Some s => Some (c :: s) | None => None end.

(** [data.decode('utf-8')], [None] for [UnicodeDecodeError]. *)
Fixpoint utf8_decode (data : bytes) : option str :=
  match data with
  | [] => Some []
  | b0 :: r0 =>
      if b0 <? 0x80 then cons_opt b0 (utf8_decode r0)
      else
        match r0 with
        | [] => None
        | b1 :: r1 =>
            if (0xC2 <=? b0) && (b0 <=? 0xDF) then
              if is_cont b1
              then cons_opt ((b0 - 0xC0) * 0x40 + (b1 - 0x80)) (utf8_decode r1)
              else None
            else
              match r1 with
              | [] => None
              | b2 :: r2 =>
                  if (0xE0 <=? b0) && (b0 <=? 0xEF) then
                    if second_of_3 b0 b1 && is_cont b2
                    then cons_opt ((b0 - 0xE0) * 0x1000 + (b1 - 0x80) * 0x40
                                   + (b2 - 0x80)) (utf8_decode r2)
                    else None
                  else
                    match r2 with
                    | [] => None
                    | b3 :: r3 =>
                        if (0xF0 <=? b0) && (b0 <=? 0xF4)
                           && second_of_4 b0 b1 && is_cont b2 && is_cont b3
                        then cons_opt ((b0 - 0xF0) * 0x40000
                                       + (b1 - 0x80) * 0x1000
                                       + (b2 - 0x80) * 0x40 + (b3 - 0x80))
                                      (utf8_decode r3)
                        else None
                    end
              end
        end
  end.

(** [data.decode('gbk')] over a table of the two-byte codes: a byte
    below 0x80 stands for itself, any other byte leads a pair. *)
Fixpoint gbk_decode (table : N -> N -> option char) (data : bytes)
  : option str :=
  match data with
  | [] => Some []
  | b0 :: r0 =>
      if b0 <? 0x80 then cons_opt b0 (gbk_decode table r0)
      else
        match r0 with
        | [] => None
        | b1 :: r1 =>
            match table b0 b1 with
            | Some c => cons_opt c (gbk_decode table r1)
            | None => None
            end
        end
  end.

(** One entry of the GBK table: D6 D0 is U+4E2D. *)
Definition gbk_table (b0 b1 : N) : option char :=
  if (b0 =? 0xD6) && (b1 =? 0xD0) then Some 0x4E2D else None.

Definition decode (enc : encoding) (data : bytes) : option str :=
  match enc with
  | UTF8 => utf8_decode data
  | GBK => gbk_decode gbk_table data
  end.

(** Encoding, for the ASCII texts, which both encodings leave as they
    are, and the one entry of [gbk_table]. *)
Fixpoint encode (enc : encoding) (s : str) : option bytes :=
  match s with
  | [] => Some []
  | c :: s' =>
      if c <? 0x80 then cons_opt c (encode enc s')
      else
        match enc with
        | GBK =>
            if c =? 0x4E2D
            then cons_opt 0xD6 (cons_opt 0xD0 (encode enc s'))
            else None
        | UTF8 => None
        end
  end.

(** [str.lower()] outside ASCII, for runs that stay inside ASCII. *)
Definition unicode_lower (s : str) : str := s.

End Codec.

(** ** Worlds to run the program on *)

Module Sample.

Definition path_of (name : string) : str := of_string name.

(** "x.txt\ny.txt\n" *)
Definition two_paths : bytes :=
  of_string "x.txt" ++ [0x0A] ++ of_string "y.txt" ++ [0x0A].

(** Two spaces, a tab and line ends: nothing but blank lines. *)
Definition blank_lines : bytes := [0x0A; 0x20; 0x20; 0x0D; 0x0A; 0x09; 0x0A].

(** The GBK bytes of U+4E2D followed by ".txt"; no UTF-8 text starts
    with D6 D0. *)
Definition gbk_name : bytes := [0xD6; 0xD0] ++ of_string ".txt".

(** Bytes neither codec accepts: a lone lead byte. *)
Definition undecodable : bytes := [0xFF].

Definition files (filepath : str) : fs_entry :=
  if str_eqb filepath (path_of "paths.txt") then Regular (Some two_paths)
  else if str_eqb filepath (path_of "blank.txt") then Regular (Some blank_lines)
  else if str_eqb filepath (path_of "gbk.txt") then Regular (Some gbk_name)
  else if str_eqb filepath (path_of "bad.bin") then Regular (Some undecodable)
  else if str_eqb filepath (path_of "locked.txt") then Regular None
  else if str_eqb filepath (path_of "folder") then NotRegular
  else Absent.

Definition linux : world :=
  {| sys_platform := of_string "linux"; fs := files; clip_spawns := false;
     stdout_check_mark := true |}.

Definition windows : world :=
  {| sys_platform := of_string "win32"; fs := files; clip_spawns := true;
     stdout_check_mark := true |}.

(** The program with the codecs of [Codec]. *)
Definition Normalizer := Normalizer Codec.unicode_lower.
Definition read_params_file := read_params_file Codec.decode.
Definition copy_file_paths := copy_file_paths Codec.encode.
Definition main := main Codec.unicode_lower Codec.decode Codec.encode.

End Sample.

(** A Windows machine with one more file: "emoji.txt" holds the UTF-8
    bytes of U+1F600, a character GBK has no code for, and ".txt". *)
Module Emoji.

Definition name : bytes := [0xF0; 0x9F; 0x98; 0x80] ++ of_string ".txt".

Definition files (filepath : str) : fs_entry :=
  if str_eqb filepath (of_string "emoji.txt") then Regular (Some name)
  else Sample.files filepath.

Definition windows : world :=
  {| sys_platform := of_string "win32"; fs := files; clip_spawns := true;
     stdout_check_mark := true |}.

(** The same machine with the output redirected: [sys.stdout] encodes in
    GBK and has no check mark. *)
Definition windows_redirected : world :=
  {| sys_platform := of_string "win32"; fs := files; clip_spawns := true;
     stdout_check_mark := false |}.

End Emoji.

(** Python on the Greek letters capital alpha, small alpha, capital
    sigma, small sigma and final sigma, for strings of these letters
    only. *)
Module Greek.

Definition Alpha : char := 0x391.
Definition alpha : char := 0x3B1.
Definition Sigma : char := 0x3A3.
Definition sigma : char := 0x3C3.
Definition final_sigma : char := 0x3C2.

(** [s.lower()]: a capital sigma that follows a letter and ends the
    string becomes the final sigma, any other one the small sigma.
    [seen] tells whether a letter came before. *)
Fixpoint lower_from (seen : bool) (s : str) : str :=
  match s with
  | [] => []
  | c :: rest =>
      (if c =? Alpha then alpha
       else if c =? Sigma then
         match rest with
         | [] => if seen then final_sigma else sigma
         | _ :: _ => sigma
         end
       else c) :: lower_from true rest
  end.

Definition lower (s : str) : str := lower_from false s.

(** [s.casefold()]: case folding knows one sigma. *)
Definition casefold (s : str) : str :=
  map (fun c => if c =? Alpha then alpha
                else if (c =? Sigma) || (c =? final_sigma) then sigma
                else c) s.

(** [s.upper()] *)
Definition upper (s : str) : str :=
  map (fun c => if c =? alpha then Alpha
                else if (c =? sigma) || (c =? final_sigma) then Sigma
                else c) s.

End Greek.

(** ** Vocabulary of the properties *)

(** [a] may stand before [b] in a list sorted by [key]: the key of [b] is
    not smaller. *)
Definition key_le (key : str -> str) (a b : str) : Prop :=
  str_ltb (key b) (key a) = false.

(** The entries whose key is [k]. *)
Definition with_key (key : str -> str) (k : str) (xs : list str) : list str :=
  filter (fun x => str_eqb (key x) k) xs.

(** The first occurrence of every string of [xs], in the order of [xs]. *)
Fixpoint keep_first (xs : list str) : list str :=
  match xs with
  | [] => []
  | x :: rest => x :: filter (fun y => negb (str_eqb y x)) (keep_first rest)
  end.

(** The lines of [L] after trimming, the empty ones left out. *)
Definition trimmed (L : list str) : list str :=
  filter truthy (map strip L).

(** The five lines of the manual fallback. *)
Definition fallback_lines (w : world) (file_paths : list str) : list event :=
  [ Print (WarnUnsupported (sys_platform w));
    Print MsgCopyManually;
    Print (Text separator);
    Print (Text (join_lines file_paths));
    Print (Text separator) ].

(** The data piped into the clipboard, in the order of the log. *)
Definition clip_events (log : list event) : list bytes :=
  flat_map (fun e => match e with ClipPipe data => [data] | _ => [] end) log.

(** No character of [s] is a line boundary. *)
Definition one_line (s : str) : bool :=
  forallb (fun c => negb (is_linebreak c)) s.

(** The lines of the listing of [file_paths], numbered from [i]. *)
Definition listing (i : nat) (file_paths : list str) : list event :=
  map (fun item => Print (MsgItem (fst item) (snd item)))
      (combine (seq i (List.length file_paths)) file_paths).

(** Equality of strings is decidable. *)
Definition str_eq_dec : forall a b : str, {a = b} + {a <> b} :=
  list_eq_dec N.eq_dec.

(** [c] and [d] are one character, or one ASCII letter in its two cases. *)
Definition same_char_ignoring_case (c d : char) : Prop :=
  c = d
  \/ (0x41 <= c /\ c <= 0x5A /\ d = c + 0x20)
  \/ (0x41 <= d /\ d <= 0x5A /\ c = d + 0x20).

(** [x] and [y] are one text but for the case of ASCII letters. *)
Definition same_ignoring_case (x y : str) : Prop :=
  Forall2 same_char_ignoring_case x y.

(** * Proofs *)

(** ** Equality and order of strings *)

Lemma str_eqb_eq (a b : str) : str_eqb a b = true <-> a = b.
Proof.
  revert b; induction a as [|x a IH]; intros [|y b]; simpl;
    try (split; congruence).
  rewrite andb_true_iff, N.eqb_eq, IH. split.
  - intros [-> ->]; reflexivity.
  - intros H; inversion H; auto.
Qed.

Lemma str_eqb_refl (a : str) : str_eqb a a = true.
Proof. apply str_eqb_eq; reflexivity. Qed.

Lemma str_eqb_neq (a b : str) : str_eqb a b = false <-> a <> b.
Proof.
  rewrite <- str_eqb_eq. destruct (str_eqb a b); split; congruence.
Qed.

Lemma str_ltb_lt (a b : str) : str_ltb a b = true <-> str_lt a b.
Proof.
  revert b; induction a as [|x a IH]; intros [|y b]; simpl;
    try (split; (congruence || tauto)).
  rewrite orb_true_iff, andb_true_iff, N.ltb_lt, N.eqb_eq, IH. tauto.
Qed.

Lemma str_lt_irrefl (a : str) : ~ str_lt a a.
Proof.
  induction a as [|x a IH]; simpl; [tauto |].
  intros [H | [_ H]]; [lia | auto].
Qed.

Lemma str_lt_trans (a b c : str) : str_lt a b -> str_lt b c -> str_lt a c.
Proof.
  revert b c; induction a as [|x a IH]; intros [|y b] [|z c]; simpl; try tauto.
  intros [H1 | [-> H1]] [H2 | [-> H2]]; try (left; lia).
  right; split; [reflexivity | eapply IH; eauto].
Qed.

Lemma str_lt_total (a b : str) : str_lt a b \/ a = b \/ str_lt b a.
Proof.
  revert b; induction a as [|x a IH]; intros [|y b]; simpl; auto.
  destruct (N.lt_total x y) as [H | [-> | H]]; auto.
  destruct (IH b) as [H | [-> | H]]; auto.
Qed.

(** ** Stripping *)

Lemma lstrip_app_keep (a : str) (c : char) :
  is_space c = false -> lstrip (a ++ [c]) = lstrip a ++ [c].
Proof.
  intros Hc; induction a as [|x a IH]; simpl.
  - rewrite Hc; reflexivity.
  - destruct (is_space x); [exact IH | reflexivity].
Qed.

Lemma lstrip_head (s : str) :
  match lstrip s with [] => True | c :: _ => is_space c = false end.
Proof.
  induction s as [|x s IH]; simpl; [exact I |].
  destruct (is_space x) eqn:E; [exact IH | exact E].
Qed.

Lemma lstrip_fixed (s : str) :
  match s with [] => True | c :: _ => is_space c = false end -> lstrip s = s.
Proof. destruct s as [|c s]; simpl; [reflexivity | intros ->; reflexivity]. Qed.

Lemma lstrip_idem (s : str) : lstrip (lstrip s) = lstrip s.
Proof. apply lstrip_fixed, lstrip_head. Qed.

Lemma is_stripped_strip (s : str) : is_stripped s -> strip s = s.
Proof.
  intros [H1 H2]. unfold strip, rstrip. rewrite H1, H2. apply rev_involutive.
Qed.

Lemma strip_is_stripped (s : str) : is_stripped (strip s).
Proof.
  unfold is_stripped, strip, rstrip. rewrite rev_involutive, lstrip_idem.
  split; [| reflexivity].
  pose proof (lstrip_head s) as Hh.
  destruct (lstrip s) as [|c t]; [reflexivity |].
  simpl rev. rewrite (lstrip_app_keep _ _ Hh), rev_app_distr. simpl.
  rewrite Hh; reflexivity.
Qed.

Lemma strip_idem (s : str) : strip (strip s) = strip s.
Proof. apply is_stripped_strip, strip_is_stripped. Qed.

Lemma is_stripped_not_blank (s : str) :
  is_stripped s -> s <> [] -> forallb is_space s = false.
Proof.
  intros [H _] Hne. destruct s as [|c t]; [congruence |].
  simpl in *. destruct (is_space c); [| reflexivity].
  exfalso. assert (Hl : (List.length (lstrip t) <= List.length t)%nat).
  { clear. induction t as [|x t IH]; simpl; [lia |].
    destruct (is_space x); simpl; lia. }
  rewrite H in Hl. simpl in Hl. lia.
Qed.

Lemma truthy_true (s : str) : truthy s = true <-> s <> [].
Proof. destruct s; simpl; split; congruence. Qed.

(** ** The comprehension *)

Lemma stripped_lines_str (L : list str) :
  stripped_lines (map PyStr L) = Return (trimmed L).
Proof.
  unfold trimmed. induction L as [|l L IH]; simpl; [reflexivity |].
  destruct (truthy (strip l)); simpl; rewrite IH; reflexivity.
Qed.

Lemma trimmed_In (L : list str) (e : str) :
  In e (trimmed L) <-> exists line, In line L /\ e = strip line /\ strip line <> [].
Proof.
  unfold trimmed. rewrite filter_In, in_map_iff, truthy_true. split.
  - intros [[line [<- Hin]] Hne]. exists line; auto.
  - intros [line [Hin [-> Hne]]]. split; [exists line; auto | exact Hne].
Qed.

Lemma trimmed_fixed (R : list str) :
  Forall (fun e => is_stripped e /\ e <> []) R -> trimmed R = R.
Proof.
  unfold trimmed. induction 1 as [|e R [Hs Hne] _ IH]; simpl; [reflexivity |].
  rewrite (is_stripped_strip _ Hs).
  destruct e; [congruence |]. simpl. f_equal. exact IH.
Qed.

(** ** The deduplication loop *)

Lemma filter_twice {A : Type} (f g : A -> bool) (l : list A) :
  filter f (filter g l) = filter (fun x => g x && f x) l.
Proof.
  induction l as [|x l IH]; simpl; [reflexivity |].
  destruct (g x); simpl; [destruct (f x) |]; rewrite IH; reflexivity.
Qed.

Lemma contains_In (acc : list str) (x : str) :
  contains acc x = true <-> In x acc.
Proof.
  unfold contains. rewrite existsb_exists. split.
  - intros [y [Hin Heq]]. apply str_eqb_eq in Heq; subst; exact Hin.
  - intros Hin. exists x. split; [exact Hin | apply str_eqb_refl].
Qed.

Lemma contains_app (acc : list str) (x y : str) :
  contains (acc ++ [x]) y = contains acc y || str_eqb y x.
Proof.
  unfold contains. rewrite existsb_app. simpl. rewrite orb_false_r. reflexivity.
Qed.

Lemma dedup_loop_keep_first (file_paths acc : list str) :
  dedup_loop acc file_paths
  = acc ++ filter (fun y => negb (contains acc y)) (keep_first file_paths).
Proof.
  revert acc; induction file_paths as [|x rest IH]; intros acc; simpl.
  - rewrite app_nil_r; reflexivity.
  - destruct (contains acc x) eqn:Hx; simpl; rewrite IH.
    + f_equal. rewrite filter_twice. apply filter_ext. intros y.
      destruct (str_eqb y x) eqn:E; simpl; [| reflexivity].
      apply str_eqb_eq in E; subst. rewrite Hx; reflexivity.
    + rewrite <- app_assoc. simpl. do 2 f_equal.
      rewrite filter_twice. apply filter_ext. intros y.
      rewrite contains_app, negb_orb. apply andb_comm.
Qed.

Lemma dedup_loop_nil (file_paths : list str) :
  dedup_loop [] file_paths = keep_first file_paths.
Proof.
  rewrite dedup_loop_keep_first. simpl.
  clear. induction (keep_first file_paths) as [|y l IH]; simpl; congruence.
Qed.

Lemma keep_first_In (xs : list str) (x : str) :
  In x (keep_first xs) <-> In x xs.
Proof.
  induction xs as [|y xs IH]; simpl; [tauto |].
  rewrite filter_In, IH, negb_true_iff, str_eqb_neq.
  destruct (str_eqb x y) eqn:E.
  - apply str_eqb_eq in E; subst; tauto.
  - apply str_eqb_neq in E. split; [tauto |]. intros [-> | H]; [congruence | tauto].
Qed.

Lemma keep_first_NoDup (xs : list str) : NoDup (keep_first xs).
Proof.
  induction xs as [|y xs IH]; simpl; constructor.
  - rewrite filter_In, negb_true_iff, str_eqb_neq. tauto.
  - apply NoDup_filter, IH.
Qed.

Lemma keep_first_fixed (xs : list str) : NoDup xs -> keep_first xs = xs.
Proof.
  induction 1 as [|y xs Hy _ IH]; simpl; [reflexivity |].
  rewrite IH. f_equal.
  rewrite <- (filter_ext_in (fun _ => true)).
  - apply filter_true.
  - intros z Hz. symmetry. apply negb_true_iff, str_eqb_neq. congruence.
Qed.

(** ** The stable sort *)

Section Sorting.

Variable key : str -> str.

Lemma key_le_refl (a : str) : key_le key a a.
Proof.
  unfold key_le. destruct (str_ltb (key a) (key a)) eqn:E; [| reflexivity].
  apply str_ltb_lt in E. destruct (str_lt_irrefl _ E).
Qed.

Lemma key_le_trans (a b c : str) :
  key_le key a b -> key_le key b c -> key_le key a c.
Proof.
  unfold key_le. intros H1 H2.
  destruct (str_ltb (key c) (key a)) eqn:E; [| reflexivity].
  apply str_ltb_lt in E.
  destruct (str_lt_total (key b) (key a)) as [H | [H | H]].
  - apply str_ltb_lt in H; congruence.
  - rewrite <- H in E. apply str_ltb_lt in E; congruence.
  - assert (Hcb : str_lt (key c) (key b)) by (eapply str_lt_trans; eauto).
    apply str_ltb_lt in Hcb; congruence.
Qed.

Lemma key_le_antisym (a b : str) :
  key_le key a b -> key_le key b a -> key a = key b.
Proof.
  unfold key_le. intros H1 H2.
  destruct (str_lt_total (key a) (key b)) as [H | [H | H]]; [| exact H |];
    apply str_ltb_lt in H; congruence.
Qed.

Lemma insert_by_perm (x : str) (xs : list str) :
  Permutation (x :: xs) (insert_by key x xs).
Proof.
  induction xs as [|y ys IH]; simpl; [reflexivity |].
  destruct (str_ltb (key y) (key x)); [| reflexivity].
  rewrite perm_swap. apply perm_skip, IH.
Qed.

Lemma sorted_perm (xs : list str) : Permutation xs (sorted key xs).
Proof.
  induction xs as [|x xs IH]; simpl; [reflexivity |].
  rewrite <- insert_by_perm. apply perm_skip, IH.
Qed.

Lemma insert_by_sorted (x : str) (xs : list str) :
  StronglySorted (key_le key) xs ->
  StronglySorted (key_le key) (insert_by key x xs).
Proof.
  induction 1 as [|y ys Hs IH Hy]; simpl.
  - constructor; constructor.
  - destruct (str_ltb (key y) (key x)) eqn:E.
    + constructor; [exact IH |].
      apply (Permutation_Forall (insert_by_perm x ys)).
      constructor; [| exact Hy].
      unfold key_le. destruct (str_ltb (key x) (key y)) eqn:E'; [| reflexivity].
      apply str_ltb_lt in E, E'.
      destruct (str_lt_irrefl _ (str_lt_trans _ _ _ E E')).
    + constructor; [constructor; assumption |].
      constructor; [exact E |].
      eapply Forall_impl; [| exact Hy]. intros z Hz.
      eapply key_le_trans; [exact E | exact Hz].
Qed.

Lemma sorted_sorted (xs : list str) : StronglySorted (key_le key) (sorted key xs).
Proof.
  induction xs as [|x xs IH]; simpl; [constructor | apply insert_by_sorted, IH].
Qed.

(** Stability: the entries of one key keep their order. *)
Lemma insert_by_with_key (k x : str) (xs : list str) :
  with_key key k (insert_by key x xs) = with_key key k (x :: xs).
Proof.
  unfold with_key. induction xs as [|y ys IH]; [reflexivity |].
  simpl insert_by. destruct (str_ltb (key y) (key x)) eqn:E; [| reflexivity].
  simpl in *. rewrite IH.
  destruct (str_eqb (key x) k) eqn:Ex, (str_eqb (key y) k) eqn:Ey; try reflexivity.
  apply str_eqb_eq in Ex, Ey. rewrite Ex, Ey in E.
  apply str_ltb_lt in E. destruct (str_lt_irrefl _ E).
Qed.

Lemma sorted_with_key (k : str) (xs : list str) :
  with_key key k (sorted key xs) = with_key key k xs.
Proof.
  induction xs as [|x xs IH]; [reflexivity |].
  simpl sorted. rewrite insert_by_with_key.
  unfold with_key in *. simpl. rewrite IH. reflexivity.
Qed.

Lemma sorted_fixed (xs : list str) :
  StronglySorted (key_le key) xs -> sorted key xs = xs.
Proof.
  induction 1 as [|x xs Hs IH Hx]; simpl; [reflexivity |].
  rewrite IH. destruct Hx as [|y ys Hxy _]; simpl; [reflexivity |].
  unfold key_le in Hxy. rewrite Hxy. reflexivity.
Qed.

(** Two lists sorted by key in which the entries of every key stand in
    the same order are one list. *)
Lemma sorted_lists_equal (l1 l2 : list str) :
  StronglySorted (key_le key) l1 ->
  StronglySorted (key_le key) l2 ->
  (forall k, with_key key k l1 = with_key key k l2) ->
  l1 = l2.
Proof.
  intros H1; revert l2.
  induction H1 as [|x t1 Hs1 IH Hx]; intros l2 H2 Hk.
  - destruct l2 as [|y t2]; [reflexivity |].
    specialize (Hk (key y)). unfold with_key in Hk. simpl in Hk.
    rewrite str_eqb_refl in Hk. discriminate.
  - destruct H2 as [|y t2 Hs2 Hy].
    + specialize (Hk (key x)). unfold with_key in Hk. simpl in Hk.
      rewrite str_eqb_refl in Hk. discriminate.
    + assert (Hin : forall l a, In a l <-> In a (with_key key (key a) l)).
      { intros l a. unfold with_key. rewrite filter_In, str_eqb_refl. tauto. }
      assert (Hxy : key_le key x y).
      { assert (Hy1 : In y (x :: t1)).
        { apply (proj2 (Hin _ _)). rewrite Hk. apply (proj1 (Hin _ _)).
          left; reflexivity. }
        destruct Hy1 as [<- | Hy1]; [apply key_le_refl |].
        rewrite Forall_forall in Hx. apply Hx, Hy1. }
      assert (Hyx : key_le key y x).
      { assert (Hx2 : In x (y :: t2)).
        { apply (proj2 (Hin _ _)). rewrite <- Hk. apply (proj1 (Hin _ _)).
          left; reflexivity. }
        destruct Hx2 as [<- | Hx2]; [apply key_le_refl |].
        rewrite Forall_forall in Hy. apply Hy, Hx2. }
      pose proof (key_le_antisym _ _ Hxy Hyx) as Hkey.
      assert (Hhd : x = y).
      { specialize (Hk (key x)). unfold with_key in Hk. simpl in Hk.
        rewrite <- Hkey, str_eqb_refl in Hk. congruence. }
      subst y. f_equal. apply IH; [exact Hs2 |].
      intros k. specialize (Hk k). unfold with_key in *. simpl in Hk.
      destruct (str_eqb (key x) k); congruence.
Qed.

(** [sorted] is the only stable sort: a list that is sorted by key and
    keeps the entries of every key in the order of [xs] is [sorted key xs]. *)
Lemma sorted_unique (xs ys : list str) :
  StronglySorted (key_le key) ys ->
  (forall k, with_key key k ys = with_key key k xs) ->
  ys = sorted key xs.
Proof.
  intros Hs Hk. apply sorted_lists_equal; [exact Hs | apply sorted_sorted |].
  intros k. rewrite sorted_with_key. apply Hk.
Qed.

End Sorting.

(** ** The normalizer *)

Section NormalizerProofs.

Variable unicode_lower : str -> str.

Lemma extract_file_paths_try_str (L : list str) :
  extract_file_paths_try unicode_lower (map PyStr L)
  = Return (sorted (lower unicode_lower) (dedup_loop [] (trimmed L))).
Proof.
  unfold extract_file_paths_try. rewrite stripped_lines_str.
  reflexivity.
Qed.

Lemma extract_file_paths_str (L : list str) :
  extract_file_paths unicode_lower (map PyStr L)
  = ([], sorted (lower unicode_lower) (dedup_loop [] (trimmed L))).
Proof.
  unfold extract_file_paths.
  destruct L as [|l L]; [reflexivity |].
  change (map PyStr (l :: L)) with (PyStr l :: map PyStr L) at 1.
  cbv iota. rewrite extract_file_paths_try_str. reflexivity.
Qed.

Lemma Normalizer_eq (L : list str) :
  Normalizer unicode_lower L = sorted (lower unicode_lower) (keep_first (trimmed L)).
Proof.
  unfold Normalizer. rewrite extract_file_paths_str, dedup_loop_nil.
  reflexivity.
Qed.

Lemma Normalizer_In (L : list str) (e : str) :
  In e (Normalizer unicode_lower L) <-> In e (trimmed L).
Proof.
  rewrite Normalizer_eq, <- (keep_first_In (trimmed L)). split; intros H.
  - eapply Permutation_in; [symmetry; apply sorted_perm | exact H].
  - eapply Permutation_in; [apply sorted_perm | exact H].
Qed.

Lemma Normalizer_NoDup (L : list str) : NoDup (Normalizer unicode_lower L).
Proof.
  rewrite Normalizer_eq.
  eapply Permutation_NoDup; [apply sorted_perm | apply keep_first_NoDup].
Qed.

Lemma Normalizer_entries (L : list str) :
  Forall (fun e => is_stripped e /\ e <> []) (Normalizer unicode_lower L).
Proof.
  apply Forall_forall. intros e He.
  apply Normalizer_In, trimmed_In in He.
  destruct He as [line [_ [-> Hne]]]. split; [apply strip_is_stripped | exact Hne].
Qed.

(** C3: on the lines "b.txt", "", "A.txt", "a.txt", "  b.txt  " the
    normalizer returns "A.txt", "a.txt", "b.txt".  The blank line is
    dropped and the padded "b.txt" is trimmed, which leaves "b.txt",
    "A.txt", "a.txt", "b.txt"; the second "b.txt" is dropped as a
    duplicate; the sort on lower-cased keys puts "A.txt" and "a.txt", in
    that order and in their own case, before "b.txt". *)
Theorem normalizer_scenario_A :
  let L := map of_string ["b.txt"; ""; "A.txt"; "a.txt"; "  b.txt  "]%string in
  stripped_lines (map PyStr L)
  = Return (map of_string ["b.txt"; "A.txt"; "a.txt"; "b.txt"]%string)
  /\ dedup_loop [] (trimmed L) = map of_string ["b.txt"; "A.txt"; "a.txt"]%string
  /\ Normalizer unicode_lower L = map of_string ["A.txt"; "a.txt"; "b.txt"]%string.
Proof. repeat split; vm_compute; reflexivity. Qed.

(** C4: the normalizer is idempotent: applied to its own output it
    returns that output. *)
Theorem normalizer_idempotent (L : list str) :
  Normalizer unicode_lower (Normalizer unicode_lower L) = Normalizer unicode_lower L.
Proof.
  rewrite (Normalizer_eq (Normalizer unicode_lower L)).
  rewrite (trimmed_fixed _ (Normalizer_entries L)).
  rewrite (keep_first_fixed _ (Normalizer_NoDup L)).
  apply sorted_fixed. rewrite Normalizer_eq. apply sorted_sorted.
Qed.

(** X14: the output of the normalizer is sorted ascending by the key of
    the code, [x.lower()], that is, no entry has a lower-cased text
    smaller than that of an entry before it; and the sort is stable: the
    entries of one lower-cased text stand in the order they have in the
    deduplicated sequence. *)
Theorem normalizer_sorted_stable (L : list str) :
  StronglySorted (key_le (lower unicode_lower)) (Normalizer unicode_lower L)
  /\ exists file_paths,
       stripped_lines (map PyStr L) = Return file_paths
       /\ forall k, with_key (lower unicode_lower) k (Normalizer unicode_lower L)
                    = with_key (lower unicode_lower) k (dedup_loop [] file_paths).
Proof.
  split.
  - rewrite Normalizer_eq. apply sorted_sorted.
  - exists (trimmed L). split; [apply stripped_lines_str |].
    intros k. rewrite Normalizer_eq, dedup_loop_nil. apply sorted_with_key.
Qed.

(** C6: no two entries of the normalizer's output are equal strings; the
    output holds, in another order, the first occurrence of every
    trimmed non-empty line, which is what the deduplication loop keeps. *)
Theorem normalizer_no_duplicates (L : list str) :
  NoDup (Normalizer unicode_lower L)
  /\ dedup_loop [] (trimmed L) = keep_first (trimmed L)
  /\ Permutation (keep_first (trimmed L)) (Normalizer unicode_lower L).
Proof.
  split; [apply Normalizer_NoDup |].
  split; [apply dedup_loop_nil |].
  rewrite Normalizer_eq. apply sorted_perm.
Qed.

(** C7: an entry of the normalizer's output is a trimmed input line, is
    not empty and does not consist of whitespace only. *)
Theorem normalizer_no_blank_entries (L : list str) (e : str) :
  In e (Normalizer unicode_lower L) ->
  e <> [] /\ forallb is_space e = false
  /\ exists line, In line L /\ e = strip line.
Proof.
  intros He.
  pose proof (Normalizer_entries L) as HF. rewrite Forall_forall in HF.
  destruct (HF e He) as [Hs Hne].
  split; [exact Hne |]. split; [apply is_stripped_not_blank; assumption |].
  apply Normalizer_In, trimmed_In in He.
  destruct He as [line [Hin [-> _]]]. exists line; auto.
Qed.

(** C10: [extract_file_paths] returns a list on every input.  The empty
    list gives the empty list at once; on a list of strings the body of
    the [try] raises nothing and its list is returned; and whenever the
    body raises, on whatever list of objects, the exception is reported
    and the empty list returned. *)
Theorem extract_file_paths_total :
  extract_file_paths unicode_lower [] = ([], [])
  /\ (forall L : list str,
        extract_file_paths_try unicode_lower (map PyStr L)
        = Return (sorted (lower unicode_lower) (dedup_loop [] (trimmed L)))
        /\ extract_file_paths unicode_lower (map PyStr L)
           = ([], sorted (lower unicode_lower) (dedup_loop [] (trimmed L))))
  /\ (forall content : list pyobj,
        exists log paths,
          extract_file_paths unicode_lower content = (log, paths)
          /\ match extract_file_paths_try unicode_lower content with
             | Return sorted_paths => log = [] /\ paths = sorted_paths
             | Raise e => log = [Print (ErrExtract e)] /\ paths = []
             end).
Proof.
  split; [reflexivity |]. split.
  - intros L. split; [apply extract_file_paths_try_str | apply extract_file_paths_str].
  - intros [|o content].
    + exists [], []. split; [reflexivity |]. simpl. auto.
    + unfold extract_file_paths.
      destruct (extract_file_paths_try unicode_lower (o :: content)) as [r | e].
      * exists [], r. auto.
      * exists [Print (ErrExtract e)], []. auto.
Qed.

End NormalizerProofs.

(** The entry "b.txt" of the output for the padded line "  b.txt  ". *)
Lemma normalizer_no_blank_entries_witness :
  In (of_string "b.txt") (Sample.Normalizer [of_string "  b.txt  "])
  /\ of_string "b.txt" <> []
  /\ forallb is_space (of_string "b.txt") = false
  /\ exists line, In line [of_string "  b.txt  "] /\ of_string "b.txt" = strip line.
Proof.
  assert (H : In (of_string "b.txt") (Sample.Normalizer [of_string "  b.txt  "])).
  { vm_compute. left; reflexivity. }
  split; [exact H |].
  exact (normalizer_no_blank_entries Codec.unicode_lower _ _ H).
Defined.

(** C5, at the lines "ασ" and "ΑΣ" (small alpha, small sigma; capital
    alpha, capital sigma).  The two are one text in two cases: the second
    is the first in capitals and case folding makes them equal.  The
    deduplicated sequence has "ασ" first.  Their keys differ, for
    [lower] turns the capital sigma at the end of "ΑΣ" into the final
    sigma, which stands before the small sigma; so the sort puts "ΑΣ"
    first, and two entries that are equal but for case do not keep the
    order of the deduplicated sequence. *)
Theorem normalizer_reorders_case_variants :
  let small := [Greek.alpha; Greek.sigma] in
  let capital := [Greek.Alpha; Greek.Sigma] in
  Greek.upper small = capital
  /\ Greek.casefold small = Greek.casefold capital
  /\ lower Greek.lower small = [Greek.alpha; Greek.sigma]
  /\ lower Greek.lower capital = [Greek.alpha; Greek.final_sigma]
  /\ str_ltb (lower Greek.lower capital) (lower Greek.lower small) = true
  /\ dedup_loop [] (trimmed [small; capital]) = [small; capital]
  /\ Normalizer Greek.lower [small; capital] = [capital; small].
Proof. repeat split; vm_compute; reflexivity. Qed.

(** The [except] branch of [extract_file_paths] is taken on a list that
    holds something else than strings. *)
Example extract_file_paths_raise :
  extract_file_paths Codec.unicode_lower [PyStr (of_string "a.txt"); PyNone]
  = ([Print (ErrExtract AttributeError)], []).
Proof. reflexivity. Qed.

(** ** The loader, the clipboard writer and the orchestrator *)

Section ProgramProofs.

Variable unicode_lower : str -> str.
Variable decode : encoding -> bytes -> option str.
Variable encode : encoding -> str -> option bytes.

Lemma read_absent (w : world) (p : str) :
  fs w p = Absent ->
  read_params_file decode w p = ([Print (ErrNotExists p)], None).
Proof.
  intros H. unfold read_params_file, path_exists. rewrite H. reflexivity.
Qed.

Lemma read_not_regular (w : world) (p : str) :
  fs w p = NotRegular ->
  read_params_file decode w p = ([Print (ErrNotAFile p)], None).
Proof.
  intros H. unfold read_params_file, path_exists, path_is_file.
  rewrite H. reflexivity.
Qed.

Lemma read_unreadable (w : world) (p : str) :
  fs w p = Regular None ->
  read_params_file decode w p = ([Print (ErrReadException OSError)], None).
Proof.
  intros H. unfold read_params_file, path_exists, path_is_file, read_text.
  rewrite H. reflexivity.
Qed.

Lemma read_utf8 (w : world) (p : str) (data : bytes) (text : str) :
  fs w p = Regular (Some data) ->
  decode UTF8 data = Some text ->
  read_params_file decode w p
  = ([ReadText p UTF8], Some (splitlines (universal_newlines text))).
Proof.
  intros H Hd. unfold read_params_file, path_exists, path_is_file, read_text.
  rewrite H. simpl. rewrite Hd. reflexivity.
Qed.

Lemma read_gbk (w : world) (p : str) (data : bytes) (text : str) :
  fs w p = Regular (Some data) ->
  decode UTF8 data = None ->
  decode GBK data = Some text ->
  read_params_file decode w p
  = ([ReadText p UTF8; Print ErrUtf8TryGbk; ReadText p GBK],
     Some (splitlines (universal_newlines text))).
Proof.
  intros H Hd Hg. unfold read_params_file, path_exists, path_is_file, read_text.
  rewrite H. simpl. rewrite Hd. simpl. rewrite Hg. reflexivity.
Qed.

Lemma read_undecodable (w : world) (p : str) (data : bytes) :
  fs w p = Regular (Some data) ->
  decode UTF8 data = None ->
  decode GBK data = None ->
  read_params_file decode w p
  = ([ReadText p UTF8; Print ErrUtf8TryGbk; ReadText p GBK;
      Print (ErrCannotRead UnicodeDecodeError)], None).
Proof.
  intros H Hd Hg. unfold read_params_file, path_exists, path_is_file, read_text.
  rewrite H. simpl. rewrite Hd. simpl. rewrite Hg. reflexivity.
Qed.

(** The loader never touches the clipboard. *)
Lemma read_no_clip (w : world) (p : str) (data : bytes) :
  ~ In (ClipPipe data) (fst (read_params_file decode w p)).
Proof.
  destruct (fs w p) as [| | [d|]] eqn:H.
  - rewrite (read_absent _ _ H). simpl. intuition discriminate.
  - rewrite (read_not_regular _ _ H). simpl. intuition discriminate.
  - destruct (decode UTF8 d) as [t|] eqn:Hd.
    + rewrite (read_utf8 _ _ _ _ H Hd). simpl. intuition discriminate.
    + destruct (decode GBK d) as [t|] eqn:Hg.
      * rewrite (read_gbk _ _ _ _ H Hd Hg). simpl. intuition discriminate.
      * rewrite (read_undecodable _ _ _ H Hd Hg). simpl. intuition discriminate.
  - rewrite (read_unreadable _ _ H). simpl. intuition discriminate.
Qed.

Lemma process_not_loaded (self : FilePathExtractor) (w : world) (p : str)
      (log : list event) :
  read_params_file decode w p = (log, None) ->
  process unicode_lower decode encode self w p
  = (Print (MsgProcessing p) :: log, false).
Proof.
  intros H. unfold process. rewrite H. simpl. rewrite app_nil_r. reflexivity.
Qed.

(** What [process] does once the loader has returned lines. *)
Lemma process_loaded (self : FilePathExtractor) (w : world) (p : str)
      (log : list event) (lines : list str) :
  read_params_file decode w p = (log, Some lines) ->
  process unicode_lower decode encode self w p
  = let file_paths := Normalizer unicode_lower lines in
    match file_paths with
    | [] => (Print (MsgProcessing p) :: log ++ [Print HintNoValidPaths], true)
    | _ :: _ =>
        (Print (MsgProcessing p) :: log
           ++ Print (MsgFound (List.length file_paths))
           :: fst (print_items 1 file_paths)
           ++ fst (copy_file_paths encode self w file_paths),
         snd (copy_file_paths encode self w file_paths))
    end.
Proof.
  intros H. unfold process, Normalizer.
  rewrite H. cbn [bind print emit ret app].
  rewrite !extract_file_paths_str. cbn [bind fst snd app].
  destruct (sorted (lower unicode_lower) (dedup_loop [] (trimmed lines)))
    as [|x xs].
  - reflexivity.
  - destruct (print_items 1 (x :: xs)) as [items []].
    destruct (copy_file_paths encode self w (x :: xs)) as [copied b].
    reflexivity.
Qed.

Lemma main_exit_code (w : world) (p : str) :
  main unicode_lower decode encode w p
  = (fst (process unicode_lower decode encode (__init__ w) w p),
     if snd (process unicode_lower decode encode (__init__ w) w p)
     then 0%Z else 1%Z).
Proof.
  unfold main. destruct (process _ _ _ _ _ _) as [l [|]]; simpl;
    rewrite app_nil_r; reflexivity.
Qed.

Lemma copy_fallback (self : FilePathExtractor) (w : world)
      (file_paths : list str) :
  startswith (sys_platform w) win = false ->
  file_paths <> [] ->
  copy_file_paths encode self w file_paths = (fallback_lines w file_paths, false).
Proof.
  intros Hp Hne. unfold copy_file_paths.
  destruct file_paths as [|x xs]; [congruence |].
  rewrite Hp. reflexivity.
Qed.


(** C2: given the empty list the clipboard writer pipes nothing into the
    clipboard, prints its hint and returns; and when the normalized list
    is empty, [process] reports that no valid path was found, nothing
    reaches the clipboard and the process ends with exit code 0. *)
Theorem empty_path_list_exits_zero (self : FilePathExtractor) (w : world)
        (p : str) (log : list event) (lines : list str) :
  read_params_file decode w p = (log, Some lines) ->
  Normalizer unicode_lower lines = [] ->
  copy_file_paths encode self w [] = ([Print HintNothingToCopy], false)
  /\ main unicode_lower decode encode w p
     = (Print (MsgProcessing p) :: log ++ [Print HintNoValidPaths], 0%Z)
  /\ forall data,
       ~ In (ClipPipe data) (fst (main unicode_lower decode encode w p)).
Proof.
  intros Hr HN.
  assert (Hm : main unicode_lower decode encode w p
               = (Print (MsgProcessing p) :: log ++ [Print HintNoValidPaths], 0%Z)).
  { rewrite main_exit_code, (process_loaded _ _ _ _ _ Hr). cbv zeta.
    rewrite HN. reflexivity. }
  split; [reflexivity |]. split; [exact Hm |].
  intros data. rewrite Hm. cbn [fst]. intros [H | H]; [discriminate |].
  apply in_app_or in H. destruct H as [H | [H | []]]; [| discriminate].
  apply (read_no_clip w p data). rewrite Hr. exact H.
Qed.

(** C8: the loader reads a readable file as UTF-8 first.  It reads it as
    GBK exactly when the UTF-8 decoding fails.  A file that UTF-8 rejects
    and GBK decodes is loaded, and [process] goes on to normalize and
    deliver its lines; a file that both reject makes the loader report
    the failure and return [None], without raising. *)
Theorem loader_utf8_then_gbk (self : FilePathExtractor) (w : world) (p : str)
        (data : bytes) :
  fs w p = Regular (Some data) ->
  (exists rest, fst (read_params_file decode w p) = ReadText p UTF8 :: rest)
  /\ (In (ReadText p GBK) (fst (read_params_file decode w p))
      <-> decode UTF8 data = None)
  /\ (forall text,
        decode UTF8 data = Some text ->
        read_params_file decode w p
        = ([ReadText p UTF8], Some (splitlines (universal_newlines text))))
  /\ (forall text,
        decode UTF8 data = None ->
        decode GBK data = Some text ->
        let lines := splitlines (universal_newlines text) in
        let log := [ReadText p UTF8; Print ErrUtf8TryGbk; ReadText p GBK] in
        let file_paths := Normalizer unicode_lower lines in
        read_params_file decode w p = (log, Some lines)
        /\ process unicode_lower decode encode self w p
           = match file_paths with
             | [] => (Print (MsgProcessing p) :: log
                        ++ [Print HintNoValidPaths], true)
             | _ :: _ =>
                 (Print (MsgProcessing p) :: log
                    ++ Print (MsgFound (List.length file_paths))
                    :: fst (print_items 1 file_paths)
                    ++ fst (copy_file_paths encode self w file_paths),
                  snd (copy_file_paths encode self w file_paths))
             end)
  /\ (decode UTF8 data = None ->
      decode GBK data = None ->
      read_params_file decode w p
      = ([ReadText p UTF8; Print ErrUtf8TryGbk; ReadText p GBK;
          Print (ErrCannotRead UnicodeDecodeError)], None)).
Proof.
  intros H.
  assert (Hcases :
    (exists text, decode UTF8 data = Some text
       /\ read_params_file decode w p
          = ([ReadText p UTF8], Some (splitlines (universal_newlines text))))
    \/ (decode UTF8 data = None
        /\ exists rest r,
             read_params_file decode w p
             = (ReadText p UTF8 :: Print ErrUtf8TryGbk :: ReadText p GBK :: rest, r))).
  { destruct (decode UTF8 data) as [text|] eqn:Hd.
    - left. exists text. split; [reflexivity | apply (read_utf8 _ _ _ _ H Hd)].
    - right. split; [reflexivity |].
      destruct (decode GBK data) as [text|] eqn:Hg.
      + eexists _, _. apply (read_gbk _ _ _ _ H Hd Hg).
      + eexists _, _. apply (read_undecodable _ _ _ H Hd Hg). }
  split; [| split; [| split; [| split]]].
  - destruct Hcases as [[text [_ Hr]] | [_ [rest [r Hr]]]]; rewrite Hr;
      eexists; reflexivity.
  - destruct Hcases as [[text [Hd Hr]] | [Hd [rest [r Hr]]]]; rewrite Hr, Hd.
    + split; [| discriminate]. intros [Hin | []]. discriminate.
    + split; [reflexivity |]. intros _. cbn [fst]. right; right; left; reflexivity.
  - intros text Hd. apply (read_utf8 _ _ _ _ H Hd).
  - intros text Hd Hg. split.
    + apply (read_gbk _ _ _ _ H Hd Hg).
    + apply process_loaded, (read_gbk _ _ _ _ H Hd Hg).
  - intros Hd Hg. apply (read_undecodable _ _ _ H Hd Hg).
Qed.

(** C9: for a path that does not exist, and for a path that exists but
    is no regular file, the loader prints the matching error and returns
    [None] in place of lines; [process] stops there and the process ends
    with exit code 1. *)
Theorem loader_rejects_missing_and_non_files (w : world) (p : str) :
  fs w p = Absent \/ fs w p = NotRegular ->
  exists msg,
    (fs w p = Absent /\ msg = ErrNotExists p
     \/ fs w p = NotRegular /\ msg = ErrNotAFile p)
    /\ read_params_file decode w p = ([Print msg], None)
    /\ main unicode_lower decode encode w p
       = ([Print (MsgProcessing p); Print msg], 1%Z).
Proof.
  intros [H | H].
  - exists (ErrNotExists p). split; [left; auto |].
    pose proof (read_absent w p H) as Hr. split; [exact Hr |].
    rewrite main_exit_code, (process_not_loaded _ _ _ _ Hr). reflexivity.
  - exists (ErrNotAFile p). split; [right; auto |].
    pose proof (read_not_regular w p H) as Hr. split; [exact Hr |].
    rewrite main_exit_code, (process_not_loaded _ _ _ _ Hr). reflexivity.
Qed.

End ProgramProofs.

(** ** Runs *)



(** On Linux, the file "blank.txt" of blank lines ends with exit code 0. *)
Lemma empty_path_list_exits_zero_witness :
  Sample.copy_file_paths (__init__ Sample.linux) Sample.linux []
  = ([Print HintNothingToCopy], false)
  /\ Sample.main Sample.linux (Sample.path_of "blank.txt")
     = (Print (MsgProcessing (Sample.path_of "blank.txt"))
          :: [ReadText (Sample.path_of "blank.txt") UTF8]
          ++ [Print HintNoValidPaths], 0%Z)
  /\ forall data,
       ~ In (ClipPipe data)
            (fst (Sample.main Sample.linux (Sample.path_of "blank.txt"))).
Proof.
  apply (empty_path_list_exits_zero Codec.unicode_lower Codec.decode
           Codec.encode (__init__ Sample.linux) Sample.linux
           (Sample.path_of "blank.txt")
           [ReadText (Sample.path_of "blank.txt") UTF8]
           [[]; [0x20; 0x20]; [0x09]]).
  - vm_compute; reflexivity.
  - vm_compute; reflexivity.
Defined.

(** The file "gbk.txt" is no UTF-8 text and is read as GBK. *)
Lemma loader_utf8_then_gbk_witness :
  fs Sample.linux (Sample.path_of "gbk.txt") = Regular (Some Sample.gbk_name)
  /\ Codec.decode UTF8 Sample.gbk_name = None
  /\ Codec.decode GBK Sample.gbk_name = Some (0x4E2D :: of_string ".txt")
  /\ Sample.read_params_file Sample.linux (Sample.path_of "gbk.txt")
     = ([ReadText (Sample.path_of "gbk.txt") UTF8; Print ErrUtf8TryGbk;
         ReadText (Sample.path_of "gbk.txt") GBK],
        Some [0x4E2D :: of_string ".txt"]).
Proof.
  assert (Hfs : fs Sample.linux (Sample.path_of "gbk.txt")
                = Regular (Some Sample.gbk_name)) by reflexivity.
  assert (Hu : Codec.decode UTF8 Sample.gbk_name = None) by reflexivity.
  assert (Hg : Codec.decode GBK Sample.gbk_name
               = Some (0x4E2D :: of_string ".txt")) by reflexivity.
  split; [exact Hfs |]. split; [exact Hu |]. split; [exact Hg |].
  exact (proj1 (proj1 (proj2 (proj2 (proj2
    (loader_utf8_then_gbk Codec.unicode_lower Codec.decode Codec.encode
       (__init__ Sample.linux) Sample.linux (Sample.path_of "gbk.txt")
       Sample.gbk_name Hfs)))) _ Hu Hg)).
Defined.

(** The path "missing.txt" names nothing, and "folder" no regular file. *)
Lemma loader_rejects_missing_and_non_files_witness :
  fs Sample.linux (Sample.path_of "missing.txt") = Absent
  /\ exists msg,
       (fs Sample.linux (Sample.path_of "missing.txt") = Absent
        /\ msg = ErrNotExists (Sample.path_of "missing.txt")
        \/ fs Sample.linux (Sample.path_of "missing.txt") = NotRegular
           /\ msg = ErrNotAFile (Sample.path_of "missing.txt"))
       /\ Sample.read_params_file Sample.linux (Sample.path_of "missing.txt")
          = ([Print msg], None)
       /\ Sample.main Sample.linux (Sample.path_of "missing.txt")
          = ([Print (MsgProcessing (Sample.path_of "missing.txt")); Print msg],
             1%Z).
Proof.
  split; [reflexivity |].
  apply (loader_rejects_missing_and_non_files Codec.unicode_lower Codec.decode
           Codec.encode Sample.linux (Sample.path_of "missing.txt")).
  left; reflexivity.
Defined.

Example loader_rejects_folder :
  Sample.main Sample.linux (Sample.path_of "folder")
  = ([Print (MsgProcessing (Sample.path_of "folder"));
      Print (ErrNotAFile (Sample.path_of "folder"))], 1%Z).
Proof. reflexivity. Qed.

Example loader_undecodable :
  Sample.read_params_file Sample.linux (Sample.path_of "bad.bin")
  = ([ReadText (Sample.path_of "bad.bin") UTF8; Print ErrUtf8TryGbk;
      ReadText (Sample.path_of "bad.bin") GBK;
      Print (ErrCannotRead UnicodeDecodeError)], None).
Proof. reflexivity. Qed.

Example windows_copies :
  Sample.main Sample.windows (Sample.path_of "paths.txt")
  = ([Print (MsgProcessing (Sample.path_of "paths.txt"));
      ReadText (Sample.path_of "paths.txt") UTF8;
      Print (MsgFound 2);
      Print (MsgItem 1 (of_string "x.txt"));
      Print (MsgItem 2 (of_string "y.txt"));
      ClipPipe (of_string "x.txt" ++ [0x0A] ++ of_string "y.txt");
      Print (MsgCopied 2)], 0%Z).
Proof. reflexivity. Qed.

(** * Further properties *)

(** ** Trimming *)

Lemma lstrip_nil_iff (s : str) : lstrip s = [] <-> forallb is_space s = true.
Proof.
  induction s as [|c s IH]; simpl; [tauto |].
  destruct (is_space c); simpl; [exact IH | split; discriminate].
Qed.

Lemma strip_cons (s : str) (c : char) (t : str) :
  lstrip s = c :: t -> strip s = c :: rev (lstrip (rev t)).
Proof.
  intros H. pose proof (lstrip_head s) as Hc. rewrite H in Hc.
  unfold strip, rstrip. rewrite H. simpl rev.
  rewrite (lstrip_app_keep _ _ Hc), rev_app_distr. reflexivity.
Qed.

Lemma strip_nil_iff (s : str) : strip s = [] <-> forallb is_space s = true.
Proof.
  rewrite <- lstrip_nil_iff. split; intros H.
  - destruct (lstrip s) as [|c t] eqn:E; [reflexivity |].
    rewrite (strip_cons _ _ _ E) in H. discriminate.
  - unfold strip, rstrip. rewrite H. reflexivity.
Qed.

Lemma lstrip_split (s : str) :
  exists a, s = a ++ lstrip s /\ forallb is_space a = true.
Proof.
  induction s as [|c s [a [Ha Hs]]]; simpl.
  - exists []. auto.
  - destruct (is_space c) eqn:E.
    + exists (c :: a). simpl. rewrite E, <- Ha. auto.
    + exists []. auto.
Qed.

Lemma forallb_rev {A : Type} (f : A -> bool) (l : list A) :
  forallb f l = true -> forallb f (rev l) = true.
Proof.
  rewrite !forallb_forall. intros H x Hx. apply H, in_rev, Hx.
Qed.

Lemma strip_split (s : str) :
  exists a b, s = a ++ strip s ++ b
              /\ forallb is_space a = true /\ forallb is_space b = true.
Proof.
  destruct (lstrip_split s) as [a [Ha Hsa]].
  destruct (lstrip_split (rev (lstrip s))) as [b [Hb Hsb]].
  exists a, (rev b). split; [| split; [exact Hsa | apply forallb_rev, Hsb]].
  unfold strip, rstrip. rewrite <- rev_app_distr, <- Hb, rev_involutive.
  exact Ha.
Qed.

Lemma strip_ends (s : str) :
  strip s <> [] ->
  (exists c t, strip s = c :: t /\ is_space c = false)
  /\ (exists t c, strip s = t ++ [c] /\ is_space c = false).
Proof.
  intros Hne. destruct (strip_is_stripped s) as [H1 H2]. split.
  - pose proof (lstrip_head (strip s)) as Hh. rewrite H1 in Hh.
    destruct (strip s) as [|c t]; [congruence |]. exists c, t. auto.
  - pose proof (lstrip_head (rev (strip s))) as Hh. rewrite H2 in Hh.
    destruct (rev (strip s)) as [|c t] eqn:E.
    + apply (f_equal (@rev char)) in E. rewrite rev_involutive in E.
      simpl in E. congruence.
    + exists (rev t), c. split; [| exact Hh].
      apply (f_equal (@rev char)) in E. rewrite rev_involutive in E. exact E.
Qed.

(** ** Lines and their joining *)

Lemma splitlines_from_one_line (s cur rest : str) :
  one_line s = true ->
  splitlines_from cur (s ++ rest) = splitlines_from (rev s ++ cur) rest.
Proof.
  revert cur; induction s as [|c s IH]; intros cur H; [reflexivity |].
  unfold one_line in H. simpl in H. apply andb_true_iff in H. destruct H as [Hc Hs].
  apply negb_true_iff in Hc. simpl. rewrite Hc, (IH _ Hs), <- app_assoc.
  reflexivity.
Qed.

Lemma splitlines_join (parts : list str) :
  Forall (fun e => e <> [] /\ one_line e = true) parts ->
  splitlines (join_lines parts) = parts.
Proof.
  unfold splitlines. induction 1 as [|e parts [Hne Hl] HF IH]; [reflexivity |].
  destruct parts as [|e' parts'].
  - simpl. rewrite <- (app_nil_r e) at 1.
    rewrite (splitlines_from_one_line _ _ _ Hl), app_nil_r. simpl.
    destruct (rev e) as [|c t] eqn:E.
    + apply (f_equal (@rev char)) in E. rewrite rev_involutive in E.
      simpl in E. congruence.
    + rewrite <- E, rev_involutive. reflexivity.
  - change (join_lines (e :: e' :: parts'))
      with (e ++ 0x0A :: join_lines (e' :: parts')).
    rewrite (splitlines_from_one_line _ _ _ Hl), app_nil_r.
    cbn [splitlines_from]. change (is_linebreak 0x0A) with true. cbv iota.
    rewrite rev_involutive. f_equal.
    change (0x0A =? 0x0D) with false. cbn [andb].
    destruct (join_lines (e' :: parts')); exact IH.
Qed.

Lemma splitlines_from_lines_upto (n : nat) (s cur line : str) :
  (List.length s <= n)%nat ->
  one_line cur = true ->
  In line (splitlines_from cur s) -> one_line line = true.
Proof.
  revert s cur; induction n as [|n IH]; intros s cur Hn Hcur Hin.
  - destruct s as [|c s]; [| simpl in Hn; lia].
    simpl in Hin. destruct cur as [|x cur']; [destruct Hin |].
    destruct Hin as [<- | []]. apply forallb_rev, Hcur.
  - destruct s as [|c s].
    + simpl in Hin. destruct cur as [|x cur']; [destruct Hin |].
      destruct Hin as [<- | []]. apply forallb_rev, Hcur.
    + simpl in Hn. simpl in Hin. destruct (is_linebreak c) eqn:Hc.
      * destruct Hin as [<- | Hin]; [apply forallb_rev, Hcur |].
        destruct s as [|c' s'].
        -- destruct Hin.
        -- destruct ((c =? 0x0D) && (c' =? 0x0A)).
           ++ apply (IH s' []); [simpl in Hn; lia | reflexivity | exact Hin].
           ++ apply (IH (c' :: s') []); [lia | reflexivity | exact Hin].
      * apply (IH s (c :: cur)); [lia | | exact Hin].
        unfold one_line in *. simpl. rewrite Hc, Hcur. reflexivity.
Qed.

Lemma splitlines_lines (s line : str) :
  In line (splitlines s) -> one_line line = true.
Proof.
  apply (splitlines_from_lines_upto (List.length s)); [lia | reflexivity].
Qed.

Lemma strip_one_line (s : str) : one_line s = true -> one_line (strip s) = true.
Proof.
  destruct (strip_split s) as [a [b [Hs _]]]. unfold one_line. intros H.
  rewrite Hs, !forallb_app in H.
  apply andb_true_iff in H. destruct H as [_ H].
  apply andb_true_iff in H. tauto.
Qed.

(** ** More on the deduplication loop *)

Lemma dedup_loop_app (a b acc : list str) :
  dedup_loop acc (a ++ b) = dedup_loop (dedup_loop acc a) b.
Proof.
  revert acc; induction a as [|x a IH]; intros acc; [reflexivity |].
  simpl. destruct (negb (contains acc x)); apply IH.
Qed.

Lemma dedup_loop_absorb (b acc : list str) :
  Forall (fun x => In x acc) b -> dedup_loop acc b = acc.
Proof.
  induction 1 as [|x b Hx _ IH]; [reflexivity |].
  simpl. apply contains_In in Hx. rewrite Hx. exact IH.
Qed.

Lemma trimmed_app (L L' : list str) : trimmed (L ++ L') = trimmed L ++ trimmed L'.
Proof. unfold trimmed. rewrite map_app, filter_app. reflexivity. Qed.

(** ** More on the normalizer *)

Section NormalizerExtras.

Variable unicode_lower : str -> str.

(** X8: the normalizer returns the empty list exactly when every input
    line is empty or whitespace only. *)
Theorem normalizer_empty_iff_blank (L : list str) :
  Normalizer unicode_lower L = []
  <-> Forall (fun line => forallb is_space line = true) L.
Proof.
  split.
  - intros HN. apply Forall_forall. intros line Hin.
    destruct (forallb is_space line) eqn:Hb; [reflexivity | exfalso].
    assert (He : In (strip line) (Normalizer unicode_lower L)).
    { apply Normalizer_In, trimmed_In. exists line. split; [exact Hin |].
      split; [reflexivity |]. intros Hs. apply strip_nil_iff in Hs. congruence. }
    rewrite HN in He. destruct He.
  - intros HF. destruct (Normalizer unicode_lower L) as [|e r] eqn:HN;
      [reflexivity | exfalso].
    assert (He : In e (Normalizer unicode_lower L)) by (rewrite HN; left; reflexivity).
    apply Normalizer_In, trimmed_In in He. destruct He as [line [Hin [_ Hne]]].
    rewrite Forall_forall in HF. apply Hne, strip_nil_iff, HF, Hin.
Qed.

(** X9: no path is lost: the trimmed text of every line that holds a
    non-whitespace character stands in the output, exactly once. *)
Theorem normalizer_keeps_every_path (L : list str) (line : str) :
  In line L ->
  forallb is_space line = false ->
  In (strip line) (Normalizer unicode_lower L)
  /\ count_occ str_eq_dec (Normalizer unicode_lower L) (strip line) = 1%nat.
Proof.
  intros Hin Hb.
  assert (He : In (strip line) (Normalizer unicode_lower L)).
  { apply Normalizer_In, trimmed_In. exists line. split; [exact Hin |].
    split; [reflexivity |]. intros Hs. apply strip_nil_iff in Hs. congruence. }
  split; [exact He |].
  apply (proj1 (NoDup_count_occ' str_eq_dec _) (Normalizer_NoDup unicode_lower L)).
  exact He.
Qed.

(** X10: the output is determined by what it must satisfy: a list that is
    sorted by the lower-cased entries and in which the entries of every
    key stand as in the deduplicated sequence is the normalizer's output. *)
Theorem normalizer_determined (L R : list str) :
  StronglySorted (key_le (lower unicode_lower)) R ->
  (forall k, with_key (lower unicode_lower) k R
             = with_key (lower unicode_lower) k (dedup_loop [] (trimmed L))) ->
  R = Normalizer unicode_lower L.
Proof.
  intros Hs Hk. rewrite Normalizer_eq, <- dedup_loop_nil.
  apply sorted_unique; assumption.
Qed.

(** X11: trimming removes whitespace only, and only at the two ends: an
    output entry, put between two runs of whitespace, is an input line,
    and it starts and ends with a character that is no whitespace. *)
Theorem normalizer_trims_only_ends (L : list str) (e : str) :
  In e (Normalizer unicode_lower L) ->
  (exists a b, In (a ++ e ++ b) L
               /\ forallb is_space a = true /\ forallb is_space b = true)
  /\ (exists c t, e = c :: t /\ is_space c = false)
  /\ (exists t c, e = t ++ [c] /\ is_space c = false).
Proof.
  intros He. apply Normalizer_In, trimmed_In in He.
  destruct He as [line [Hin [-> Hne]]]. split.
  - destruct (strip_split line) as [a [b [Hs [Ha Hb]]]].
    exists a, b. rewrite <- Hs. auto.
  - apply strip_ends, Hne.
Qed.

(** X12: lines that are blank, or whose trimmed text an earlier line
    already gave, change nothing when they are appended. *)
Theorem normalizer_ignores_repeats (L L' : list str) :
  Forall (fun line => forallb is_space line = true
                      \/ In (strip line) (trimmed L)) L' ->
  Normalizer unicode_lower (L ++ L') = Normalizer unicode_lower L.
Proof.
  intros HF. rewrite !Normalizer_eq, <- !dedup_loop_nil.
  rewrite trimmed_app, dedup_loop_app. f_equal.
  apply dedup_loop_absorb. apply Forall_forall. intros x Hx.
  apply trimmed_In in Hx. destruct Hx as [line [Hin [-> Hne]]].
  rewrite Forall_forall in HF. destruct (HF line Hin) as [Hb | Hb].
  - apply strip_nil_iff in Hb. congruence.
  - rewrite dedup_loop_nil. apply keep_first_In, Hb.
Qed.

(** The entries of the output for lines without line boundaries are
    non-empty and hold no line boundary. *)
Lemma Normalizer_one_line (L : list str) :
  Forall (fun line => one_line line = true) L ->
  Forall (fun e => e <> [] /\ one_line e = true) (Normalizer unicode_lower L).
Proof.
  intros HF. apply Forall_forall. intros e He.
  apply Normalizer_In, trimmed_In in He. destruct He as [line [Hin [-> Hne]]].
  split; [exact Hne |]. apply strip_one_line.
  rewrite Forall_forall in HF. apply HF, Hin.
Qed.

End NormalizerExtras.

Lemma normalizer_keeps_every_path_witness :
  In (of_string "  b.txt  ") [of_string "a.txt"; of_string "  b.txt  "]
  /\ forallb is_space (of_string "  b.txt  ") = false
  /\ In (strip (of_string "  b.txt  "))
        (Sample.Normalizer [of_string "a.txt"; of_string "  b.txt  "])
  /\ count_occ str_eq_dec
       (Sample.Normalizer [of_string "a.txt"; of_string "  b.txt  "])
       (strip (of_string "  b.txt  ")) = 1%nat.
Proof.
  assert (Hin : In (of_string "  b.txt  ")
                   [of_string "a.txt"; of_string "  b.txt  "])
    by (right; left; reflexivity).
  assert (Hb : forallb is_space (of_string "  b.txt  ") = false) by reflexivity.
  split; [exact Hin |]. split; [exact Hb |].
  exact (normalizer_keeps_every_path Codec.unicode_lower _ _ Hin Hb).
Defined.

Lemma normalizer_determined_witness :
  map of_string ["A.txt"; "a.txt"; "b.txt"]%string
  = Sample.Normalizer (map of_string ["b.txt"; "A.txt"; "a.txt"]%string).
Proof.
  apply (normalizer_determined Codec.unicode_lower).
  - repeat (constructor; try reflexivity).
  - intros k.
    assert (Hd : dedup_loop [] (trimmed (map of_string ["b.txt"; "A.txt"; "a.txt"]%string))
                 = map of_string ["b.txt"; "A.txt"; "a.txt"]%string)
      by (vm_compute; reflexivity).
    assert (HA : lower Codec.unicode_lower (of_string "A.txt") = of_string "a.txt")
      by reflexivity.
    assert (Ha : lower Codec.unicode_lower (of_string "a.txt") = of_string "a.txt")
      by reflexivity.
    assert (Hb : lower Codec.unicode_lower (of_string "b.txt") = of_string "b.txt")
      by reflexivity.
    rewrite Hd. unfold with_key. cbn [map filter]. rewrite HA, Ha, Hb.
    destruct (str_eqb (of_string "a.txt") k) eqn:Ea;
      destruct (str_eqb (of_string "b.txt") k) eqn:Eb; try reflexivity.
    apply str_eqb_eq in Ea, Eb. rewrite <- Eb in Ea. discriminate.
Defined.

Lemma normalizer_trims_only_ends_witness :
  In (of_string "my file.txt")
     (Sample.Normalizer [of_string "  my file.txt "])
  /\ (exists a b, In (a ++ of_string "my file.txt" ++ b)
                     [of_string "  my file.txt "]
                  /\ forallb is_space a = true /\ forallb is_space b = true)
  /\ (exists c t, of_string "my file.txt" = c :: t /\ is_space c = false)
  /\ (exists t c, of_string "my file.txt" = t ++ [c] /\ is_space c = false).
Proof.
  assert (H : In (of_string "my file.txt")
                 (Sample.Normalizer [of_string "  my file.txt "])).
  { vm_compute. left; reflexivity. }
  split; [exact H |].
  exact (normalizer_trims_only_ends Codec.unicode_lower _ _ H).
Defined.

Lemma normalizer_ignores_repeats_witness :
  Sample.Normalizer ([of_string "b.txt"; of_string "a.txt"]
                       ++ [of_string "  a.txt"; of_string "   "; of_string "b.txt"])
  = Sample.Normalizer [of_string "b.txt"; of_string "a.txt"].
Proof.
  apply (normalizer_ignores_repeats Codec.unicode_lower).
  apply Forall_cons; [right; vm_compute; right; left; reflexivity |].
  apply Forall_cons; [left; reflexivity |].
  apply Forall_cons; [right; vm_compute; left; reflexivity |].
  apply Forall_nil.
Defined.

(** ** More on the loader, the clipboard writer and the orchestrator *)

Section ProgramExtras.

Variable unicode_lower : str -> str.
Variable decode : encoding -> bytes -> option str.
Variable encode : encoding -> str -> option bytes.

Lemma clip_events_app (a b : list event) :
  clip_events (a ++ b) = clip_events a ++ clip_events b.
Proof. apply flat_map_app. Qed.

Lemma read_clip_events (w : world) (p : str) :
  clip_events (fst (read_params_file decode w p)) = [].
Proof.
  destruct (fs w p) as [| | [d|]] eqn:H.
  - rewrite (read_absent _ _ _ H). reflexivity.
  - rewrite (read_not_regular _ _ _ H). reflexivity.
  - destruct (decode UTF8 d) as [t|] eqn:Hd.
    + rewrite (read_utf8 _ _ _ _ _ H Hd). reflexivity.
    + destruct (decode GBK d) as [t|] eqn:Hg.
      * rewrite (read_gbk _ _ _ _ _ H Hd Hg). reflexivity.
      * rewrite (read_undecodable _ _ _ _ H Hd Hg). reflexivity.
  - rewrite (read_unreadable _ _ _ H). reflexivity.
Qed.

Lemma print_items_listing (file_paths : list str) (i : nat) :
  print_items i file_paths = (listing i file_paths, tt).
Proof.
  revert i; induction file_paths as [|x l IH]; intros i; [reflexivity |].
  cbn [print_items]. rewrite IH. reflexivity.
Qed.

Lemma listing_clip_events (file_paths : list str) (i : nat) :
  clip_events (listing i file_paths) = [].
Proof.
  revert i; induction file_paths as [|x l IH]; intros i; [reflexivity |].
  unfold listing in *. simpl. apply IH.
Qed.

(** The Windows branch of [copy_file_paths], for the object [main] builds. *)
Lemma copy_windows (w : world) (file_paths : list str) :
  startswith (sys_platform w) win = true ->
  file_paths <> [] ->
  copy_file_paths encode (__init__ w) w file_paths
  = if clip_spawns w then
      match encode GBK (join_lines file_paths) with
      | Some data =>
          if stdout_check_mark w then
            ([ClipPipe data; Print (MsgCopied (List.length file_paths))], true)
          else
            ([ClipPipe data; Print (ErrCopyFailed UnicodeEncodeError)], false)
      | None => ([Print (ErrCopyFailed UnicodeEncodeError)], false)
      end
    else ([Print (ErrCopyFailed OSError)], false).
Proof.
  intros Hp Hne. destruct file_paths as [|x xs]; [congruence |].
  unfold copy_file_paths, clip_try, __init__, _get_system_clipboard_encoding.
  rewrite Hp. cbn [clipboard_encoding].
  destruct (clip_spawns w); [| reflexivity].
  destruct (encode GBK (join_lines (x :: xs))); [| reflexivity].
  destruct (stdout_check_mark w); reflexivity.
Qed.

(** What [main] does once the loader has returned lines that hold a path. *)
Lemma main_loaded (w : world) (p : str) (log : list event)
      (lines file_paths : list str) :
  read_params_file decode w p = (log, Some lines) ->
  Normalizer unicode_lower lines = file_paths ->
  file_paths <> [] ->
  main unicode_lower decode encode w p
  = (Print (MsgProcessing p) :: log
       ++ Print (MsgFound (List.length file_paths))
       :: listing 1 file_paths
       ++ fst (copy_file_paths encode (__init__ w) w file_paths),
     if snd (copy_file_paths encode (__init__ w) w file_paths)
     then 0%Z else 1%Z).
Proof.
  intros Hr HN Hne.
  rewrite main_exit_code, (process_loaded _ _ _ _ _ _ _ _ Hr). cbv zeta.
  rewrite HN. destruct file_paths as [|x xs]; [congruence |].
  rewrite print_items_listing. reflexivity.
Qed.

(** X1: on Windows, when the shell starts, the joined text has a GBK
    encoding and [sys.stdout] can encode the check mark of the success
    line, [main] lists the paths, pipes exactly those bytes into [clip],
    once, reports the count and ends with exit code 0. *)
Theorem windows_copy_succeeds (w : world) (p : str) (log : list event)
        (lines file_paths : list str) (data : bytes) :
  startswith (sys_platform w) win = true ->
  clip_spawns w = true ->
  stdout_check_mark w = true ->
  read_params_file decode w p = (log, Some lines) ->
  Normalizer unicode_lower lines = file_paths ->
  file_paths <> [] ->
  encode GBK (join_lines file_paths) = Some data ->
  main unicode_lower decode encode w p
  = (Print (MsgProcessing p) :: log
       ++ Print (MsgFound (List.length file_paths))
       :: listing 1 file_paths
       ++ [ClipPipe data; Print (MsgCopied (List.length file_paths))],
     0%Z).
Proof.
  intros Hp Hs Hc Hr HN Hne He.
  rewrite (main_loaded _ _ _ _ _ Hr HN Hne), (copy_windows _ _ Hp Hne), Hs, He, Hc.
  reflexivity.
Qed.

(** X13: on Windows, when the bytes were piped into [clip] and
    [sys.stdout] cannot encode the check mark of the success line, the
    print raises inside the [try]: the clipboard holds the text, the copy
    is reported as failed and the process ends with exit code 1. *)
Theorem windows_copy_unreported (w : world) (p : str) (log : list event)
        (lines file_paths : list str) (data : bytes) :
  startswith (sys_platform w) win = true ->
  clip_spawns w = true ->
  stdout_check_mark w = false ->
  read_params_file decode w p = (log, Some lines) ->
  Normalizer unicode_lower lines = file_paths ->
  file_paths <> [] ->
  encode GBK (join_lines file_paths) = Some data ->
  main unicode_lower decode encode w p
  = (Print (MsgProcessing p) :: log
       ++ Print (MsgFound (List.length file_paths))
       :: listing 1 file_paths
       ++ [ClipPipe data; Print (ErrCopyFailed UnicodeEncodeError)],
     1%Z).
Proof.
  intros Hp Hs Hc Hr HN Hne He.
  rewrite (main_loaded _ _ _ _ _ Hr HN Hne), (copy_windows _ _ Hp Hne), Hs, He, Hc.
  reflexivity.
Qed.


Lemma main_not_loaded (w : world) (p : str) (log : list event) :
  read_params_file decode w p = (log, None) ->
  main unicode_lower decode encode w p = (Print (MsgProcessing p) :: log, 1%Z).
Proof.
  intros Hr.
  rewrite main_exit_code, (process_not_loaded _ _ _ _ _ _ _ Hr). reflexivity.
Qed.

Lemma main_nothing_found (w : world) (p : str) (log : list event)
      (lines : list str) :
  read_params_file decode w p = (log, Some lines) ->
  Normalizer unicode_lower lines = [] ->
  main unicode_lower decode encode w p
  = (Print (MsgProcessing p) :: log ++ [Print HintNoValidPaths], 0%Z).
Proof.
  intros Hr HN.
  rewrite main_exit_code, (process_loaded _ _ _ _ _ _ _ _ Hr). cbv zeta.
  rewrite HN. reflexivity.
Qed.

Lemma clip_events_framed (p : str) (log tail : list event) :
  clip_events log = [] ->
  clip_events (Print (MsgProcessing p) :: log ++ tail) = clip_events tail.
Proof.
  intros Hl. change (clip_events (Print (MsgProcessing p) :: log ++ tail))
    with (clip_events (log ++ tail)).
  rewrite clip_events_app, Hl. reflexivity.
Qed.

Lemma loaded_log_clip_events (w : world) (p : str) (log : list event)
      (r : option (list str)) :
  read_params_file decode w p = (log, r) -> clip_events log = [].
Proof.
  intros Hr. pose proof (read_clip_events w p) as Hl.
  rewrite Hr in Hl. exact Hl.
Qed.

Lemma main_loaded_clip_events (w : world) (p : str) (log : list event)
      (lines file_paths : list str) :
  read_params_file decode w p = (log, Some lines) ->
  Normalizer unicode_lower lines = file_paths ->
  file_paths <> [] ->
  clip_events (fst (main unicode_lower decode encode w p))
  = clip_events (fst (copy_file_paths encode (__init__ w) w file_paths)).
Proof.
  intros Hr HN Hne. rewrite (main_loaded _ _ _ _ _ Hr HN Hne). cbn [fst].
  rewrite (clip_events_framed _ _ _ (loaded_log_clip_events _ _ _ _ Hr)).
  change (clip_events (Print ?m :: ?l)) with (clip_events l).
  rewrite clip_events_app, listing_clip_events. reflexivity.
Qed.

(** X3: whatever the platform and the file, [main] writes to the
    clipboard at most once, and what it writes is the GBK encoding of the
    newline-joined normalized list: the UTF-8 clipboard encoding chosen
    for the other platforms is never used.  A write happens on Windows
    only; after it the exit code is 0 when the success line could be
    printed and 1 when it could not. *)
Theorem clipboard_written_once_in_gbk (w : world) (p : str) :
  clip_events (fst (main unicode_lower decode encode w p)) = []
  \/ exists log lines data,
       startswith (sys_platform w) win = true
       /\ read_params_file decode w p = (log, Some lines)
       /\ encode GBK (join_lines (Normalizer unicode_lower lines)) = Some data
       /\ clip_events (fst (main unicode_lower decode encode w p)) = [data]
       /\ snd (main unicode_lower decode encode w p)
          = (if stdout_check_mark w then 0%Z else 1%Z).
Proof.
  destruct (read_params_file decode w p) as [log [lines|]] eqn:Hr.
  - destruct (Normalizer unicode_lower lines) as [|x xs] eqn:HN.
    + left. rewrite (main_nothing_found _ _ _ _ Hr HN). cbn [fst].
      rewrite (clip_events_framed _ _ _ (loaded_log_clip_events _ _ _ _ Hr)).
      reflexivity.
    + assert (Hne : x :: xs <> []) by discriminate.
      pose proof (main_loaded _ _ _ _ _ Hr HN Hne) as Hm.
      pose proof (main_loaded_clip_events _ _ _ _ _ Hr HN Hne) as Hc.
      destruct (startswith (sys_platform w) win) eqn:Hp.
      * rewrite (copy_windows _ _ Hp Hne) in Hm, Hc.
        destruct (clip_spawns w); [| left; exact Hc].
        destruct (encode GBK (join_lines (x :: xs))) as [data|] eqn:He;
          [| left; exact Hc].
        right. exists log, lines, data.
        split; [reflexivity |]. split; [reflexivity |].
        split; [rewrite HN; exact He |].
        destruct (stdout_check_mark w);
          (split; [exact Hc | rewrite Hm; reflexivity]).
      * rewrite (copy_fallback _ _ _ _ Hp Hne) in Hc. left. exact Hc.
  - left. rewrite (main_not_loaded _ _ _ Hr). cbn [fst].
    change (clip_events (Print ?m :: ?l)) with (clip_events l).
    apply (loaded_log_clip_events _ _ _ _ Hr).
Qed.

(** X4: the exit code is 0 or 1, and it is 0 exactly when the file was
    loaded and either holds no path or the paths were piped into the
    clipboard and the success line was printed: on Windows, with the
    shell started, the joined text encodable in GBK and a [sys.stdout]
    that can encode the check mark. *)
Theorem exit_code_zero_iff (w : world) (p : str) :
  (snd (main unicode_lower decode encode w p) = 0%Z
   \/ snd (main unicode_lower decode encode w p) = 1%Z)
  /\ (snd (main unicode_lower decode encode w p) = 0%Z
      <-> exists lines,
            snd (read_params_file decode w p) = Some lines
            /\ (Normalizer unicode_lower lines = []
                \/ (startswith (sys_platform w) win = true
                    /\ clip_spawns w = true
                    /\ stdout_check_mark w = true
                    /\ exists data,
                         encode GBK (join_lines (Normalizer unicode_lower lines))
                         = Some data))).
Proof.
  destruct (read_params_file decode w p) as [log [lines|]] eqn:Hr; cbn [snd].
  - destruct (Normalizer unicode_lower lines) as [|x xs] eqn:HN.
    + rewrite (main_nothing_found _ _ _ _ Hr HN). cbn [snd].
      split; [left; reflexivity |]. split; [| reflexivity].
      intros _. exists lines. rewrite HN. auto.
    + assert (Hne : x :: xs <> []) by discriminate.
      rewrite (main_loaded _ _ _ _ _ Hr HN Hne). cbn [snd].
      destruct (startswith (sys_platform w) win) eqn:Hp.
      * rewrite (copy_windows _ _ Hp Hne).
        destruct (clip_spawns w) eqn:Hs.
        -- destruct (encode GBK (join_lines (x :: xs))) as [data|] eqn:He.
           ++ destruct (stdout_check_mark w) eqn:Hc; cbn [snd].
              ** split; [left; reflexivity |]. split; [| reflexivity].
                 intros _. exists lines. split; [reflexivity |]. right.
                 rewrite HN. repeat split. exists data. exact He.
              ** split; [right; reflexivity |]. split; [discriminate |].
                 intros [lines' [Hl [HN' | [_ [_ [Hc' _]]]]]];
                   inversion Hl; subst lines'; congruence.
           ++ cbn [snd]. split; [right; reflexivity |]. split; [discriminate |].
              intros [lines' [Hl [HN' | [_ [_ [_ [data Hd]]]]]]];
                inversion Hl; subst lines'; congruence.
        -- cbn [snd]. split; [right; reflexivity |]. split; [discriminate |].
           intros [lines' [Hl [HN' | [_ [Hs' _]]]]];
             inversion Hl; subst lines'; congruence.
      * rewrite (copy_fallback _ _ _ _ Hp Hne). cbn [snd].
        split; [right; reflexivity |]. split; [discriminate |].
        intros [lines' [Hl [HN' | [Hp' _]]]];
          inversion Hl; subst lines'; congruence.
  - rewrite (main_not_loaded _ _ _ Hr). cbn [snd].
    split; [right; reflexivity |]. split; [discriminate |].
    intros [lines' [Hl _]]. discriminate.
Qed.

(** X5: the loader returns lines exactly for a readable regular file
    whose bytes decode as UTF-8 or, failing that, as GBK, and the lines
    are those of the decoded text; a file that cannot be read is not
    tried a second time. *)
Theorem loader_succeeds_iff (w : world) (p : str) (lines : list str) :
  (snd (read_params_file decode w p) = Some lines
   <-> exists data text,
         fs w p = Regular (Some data)
         /\ (decode UTF8 data = Some text
             \/ decode UTF8 data = None /\ decode GBK data = Some text)
         /\ lines = splitlines (universal_newlines text))
  /\ (fs w p = Regular None ->
      read_params_file decode w p = ([Print (ErrReadException OSError)], None)).
Proof.
  split; [| apply read_unreadable].
  destruct (fs w p) as [| | [d|]] eqn:H.
  - rewrite (read_absent _ _ _ H). cbn [snd].
    split; [discriminate | intros [data [text [Hd _]]]; discriminate].
  - rewrite (read_not_regular _ _ _ H). cbn [snd].
    split; [discriminate | intros [data [text [Hd _]]]; discriminate].
  - destruct (decode UTF8 d) as [t|] eqn:Hd.
    + rewrite (read_utf8 _ _ _ _ _ H Hd). cbn [snd]. split.
      * intros Hl. inversion Hl. exists d, t. auto.
      * intros [data [text [Hf [[Hu | [Hu _]] Hl]]]];
          inversion Hf; subst data; congruence.
    + destruct (decode GBK d) as [t|] eqn:Hg.
      * rewrite (read_gbk _ _ _ _ _ H Hd Hg). cbn [snd]. split.
        -- intros Hl. inversion Hl. exists d, t. auto.
        -- intros [data [text [Hf [[Hu | [_ Hu]] Hl]]]];
             inversion Hf; subst data; congruence.
      * rewrite (read_undecodable _ _ _ _ H Hd Hg). cbn [snd]. split.
        -- discriminate.
        -- intros [data [text [Hf [[Hu | [_ Hu]] Hl]]]];
             inversion Hf; subst data; congruence.
  - rewrite (read_unreadable _ _ _ H). cbn [snd].
    split; [discriminate | intros [data [text [Hd _]]]; discriminate].
Qed.

Lemma loaded_lines_one_line (w : world) (p : str) (log : list event)
      (lines : list str) :
  read_params_file decode w p = (log, Some lines) ->
  Forall (fun line => one_line line = true) lines.
Proof.
  intros Hr.
  destruct (fs w p) as [| | [d|]] eqn:H.
  - rewrite (read_absent _ _ _ H) in Hr. discriminate.
  - rewrite (read_not_regular _ _ _ H) in Hr. discriminate.
  - assert (Hs : exists text, lines = splitlines text).
    { destruct (decode UTF8 d) as [t|] eqn:Hd.
      - rewrite (read_utf8 _ _ _ _ _ H Hd) in Hr. inversion Hr. eexists; reflexivity.
      - destruct (decode GBK d) as [t|] eqn:Hg.
        + rewrite (read_gbk _ _ _ _ _ H Hd Hg) in Hr. inversion Hr.
          eexists; reflexivity.
        + rewrite (read_undecodable _ _ _ _ H Hd Hg) in Hr. discriminate. }
    destruct Hs as [text ->]. apply Forall_forall. intros line.
    apply splitlines_lines.
  - rewrite (read_unreadable _ _ _ H) in Hr. discriminate.
Qed.

(** X6: the text put on the clipboard, or printed for copying by hand,
    splits back into the normalized list: for the lines of a loaded
    file, [splitlines] undoes the joining with newlines. *)
Theorem clipboard_text_splits_back (w : world) (p : str) (log : list event)
        (lines : list str) :
  read_params_file decode w p = (log, Some lines) ->
  splitlines (join_lines (Normalizer unicode_lower lines))
  = Normalizer unicode_lower lines.
Proof.
  intros Hr. apply splitlines_join, Normalizer_one_line.
  apply (loaded_lines_one_line _ _ _ _ Hr).
Qed.

(** X7: the listing shows every path of the output once, in the order
    of the output, the path at position [k] (from 0) under the number
    [k + 1]. *)
Theorem listing_numbers_paths (file_paths : list str) (k : nat) (path : str) :
  nth_error file_paths k = Some path ->
  List.length (fst (print_items 1 file_paths)) = List.length file_paths
  /\ nth_error (fst (print_items 1 file_paths)) k
     = Some (Print (MsgItem (S k) path)).
Proof.
  intros Hk. rewrite print_items_listing. cbn [fst]. split.
  - unfold listing. rewrite length_map, length_combine, length_seq. lia.
  - change (S k) with (1 + k)%nat. generalize 1%nat as i.
    revert k Hk. induction file_paths as [|x l IH]; intros k Hk i.
    + destruct k; discriminate.
    + destruct k as [|k]; simpl in Hk.
      * inversion Hk. unfold listing. simpl. rewrite Nat.add_0_r. reflexivity.
      * unfold listing in *. simpl. rewrite (IH k Hk (S i)).
        do 3 f_equal. lia.
Qed.

End ProgramExtras.

(** ** More runs *)

(** On Windows, "paths.txt" is piped into the clipboard. *)
Lemma windows_copy_succeeds_witness :
  Sample.main Sample.windows (Sample.path_of "paths.txt")
  = (Print (MsgProcessing (Sample.path_of "paths.txt"))
       :: [ReadText (Sample.path_of "paths.txt") UTF8]
       ++ Print (MsgFound 2)
       :: listing 1 [of_string "x.txt"; of_string "y.txt"]
       ++ [ClipPipe (of_string "x.txt" ++ [0x0A] ++ of_string "y.txt");
           Print (MsgCopied 2)],
     0%Z).
Proof.
  apply (windows_copy_succeeds Codec.unicode_lower Codec.decode Codec.encode
           Sample.windows (Sample.path_of "paths.txt")
           [ReadText (Sample.path_of "paths.txt") UTF8]
           [of_string "x.txt"; of_string "y.txt"]
           [of_string "x.txt"; of_string "y.txt"]).
  - reflexivity.
  - reflexivity.
  - reflexivity.
  - vm_compute; reflexivity.
  - vm_compute; reflexivity.
  - discriminate.
  - vm_compute; reflexivity.
Defined.

(** On Windows with the output redirected, "paths.txt" reaches the
    clipboard and the exit code is 1. *)
Lemma windows_copy_unreported_witness :
  Sample.main Emoji.windows_redirected (Sample.path_of "paths.txt")
  = (Print (MsgProcessing (Sample.path_of "paths.txt"))
       :: [ReadText (Sample.path_of "paths.txt") UTF8]
       ++ Print (MsgFound 2)
       :: listing 1 [of_string "x.txt"; of_string "y.txt"]
       ++ [ClipPipe (of_string "x.txt" ++ [0x0A] ++ of_string "y.txt");
           Print (ErrCopyFailed UnicodeEncodeError)],
     1%Z).
Proof.
  apply (windows_copy_unreported Codec.unicode_lower Codec.decode Codec.encode
           Emoji.windows_redirected (Sample.path_of "paths.txt")
           [ReadText (Sample.path_of "paths.txt") UTF8]
           [of_string "x.txt"; of_string "y.txt"]
           [of_string "x.txt"; of_string "y.txt"]).
  - reflexivity.
  - reflexivity.
  - reflexivity.
  - vm_compute; reflexivity.
  - vm_compute; reflexivity.
  - discriminate.
  - vm_compute; reflexivity.
Defined.


(** The two paths of "paths.txt", joined and split again. *)
Lemma clipboard_text_splits_back_witness :
  splitlines (join_lines (Sample.Normalizer [of_string "x.txt"; of_string "y.txt"]))
  = Sample.Normalizer [of_string "x.txt"; of_string "y.txt"].
Proof.
  apply (clipboard_text_splits_back Codec.unicode_lower Codec.decode
           Sample.linux (Sample.path_of "paths.txt")
           [ReadText (Sample.path_of "paths.txt") UTF8]
           [of_string "x.txt"; of_string "y.txt"]).
  vm_compute; reflexivity.
Defined.

(** The second line of the listing of "x.txt", "y.txt". *)
Lemma listing_numbers_paths_witness :
  List.length (fst (print_items 1 [of_string "x.txt"; of_string "y.txt"])) = 2%nat
  /\ nth_error (fst (print_items 1 [of_string "x.txt"; of_string "y.txt"])) 1
     = Some (Print (MsgItem 2 (of_string "y.txt"))).
Proof.
  apply (listing_numbers_paths [of_string "x.txt"; of_string "y.txt"] 1
           (of_string "y.txt")).
  reflexivity.
Defined.

(** ** The key on ASCII *)

Lemma ascii_lower_same_char (c d : char) :
  is_ascii c = true -> is_ascii d = true ->
  (ascii_lower c = ascii_lower d <-> same_char_ignoring_case c d).
Proof.
  unfold is_ascii, ascii_lower, same_char_ignoring_case.
  rewrite !N.ltb_lt. intros Hc Hd.
  destruct (0x41 <=? c) eqn:Ec1; destruct (c <=? 0x5A) eqn:Ec2;
    destruct (0x41 <=? d) eqn:Ed1; destruct (d <=? 0x5A) eqn:Ed2;
    cbn [andb];
    repeat match goal with
           | H : (_ <=? _) = true |- _ => apply N.leb_le in H
           | H : (_ <=? _) = false |- _ => apply N.leb_gt in H
           end;
    lia.
Qed.

(** X15: on ASCII texts the key is blind to the case of letters and to
    nothing else: two ASCII strings have the same key exactly when they
    are one text but for the case of letters, and then neither is sorted
    before the other. *)
Theorem lower_ascii_ignores_case (unicode_lower : str -> str) (x y : str) :
  forallb is_ascii x = true ->
  forallb is_ascii y = true ->
  (lower unicode_lower x = lower unicode_lower y <-> same_ignoring_case x y)
  /\ (same_ignoring_case x y ->
      key_le (lower unicode_lower) x y /\ key_le (lower unicode_lower) y x).
Proof.
  intros Hx Hy.
  assert (Hiff : lower unicode_lower x = lower unicode_lower y
                 <-> same_ignoring_case x y).
  { unfold lower, same_ignoring_case. rewrite Hx, Hy.
    revert y Hy; induction x as [|c x IH]; intros [|d y] Hy; simpl.
    - split; [constructor | reflexivity].
    - split; [discriminate | intros H; inversion H].
    - split; [discriminate | intros H; inversion H].
    - simpl in Hx, Hy. apply andb_true_iff in Hx, Hy.
      destruct Hx as [Hc Hx], Hy as [Hd Hy]. split.
      + intros H. inversion H as [[H1 H2]]. constructor.
        * apply (ascii_lower_same_char _ _ Hc Hd), H1.
        * apply (IH Hx y Hy), H2.
      + intros H. inversion H as [|? ? ? ? H1 H2]; subst. f_equal.
        * apply (ascii_lower_same_char _ _ Hc Hd), H1.
        * apply (IH Hx y Hy), H2. }
  split; [exact Hiff |].
  intros Hs. apply Hiff in Hs. unfold key_le. rewrite Hs.
  assert (Hirr : str_ltb (lower unicode_lower y) (lower unicode_lower y) = false).
  { destruct (str_ltb _ _) eqn:E; [| reflexivity].
    apply str_ltb_lt in E. destruct (str_lt_irrefl _ E). }
  auto.
Qed.

Lemma lower_ascii_ignores_case_witness :
  (lower Codec.unicode_lower (of_string "A.TXT")
   = lower Codec.unicode_lower (of_string "a.txt")
   <-> same_ignoring_case (of_string "A.TXT") (of_string "a.txt"))
  /\ (same_ignoring_case (of_string "A.TXT") (of_string "a.txt") ->
      key_le (lower Codec.unicode_lower) (of_string "A.TXT") (of_string "a.txt")
      /\ key_le (lower Codec.unicode_lower) (of_string "a.txt") (of_string "A.TXT")).
Proof.
  apply (lower_ascii_ignores_case Codec.unicode_lower
           (of_string "A.TXT") (of_string "a.txt")); reflexivity.
Defined.
